(** * gorest: JWT claims and REST verb dispatch

    A shallow embedding of [jwt/claims.go] (the claims container, its
    coercive getters, the reserved-claim accessors and the JSON codec) and
    of [handleJob] from the REST handler file, followed by the properties
    the specification states about them.

    Conventions of the embedding:
    - Go's [interface{}] is the tagged union [Value]; a type switch is a
      [match] whose branches come in the order of the source.
    - A [Claims] is a Go map, hence a reference that may be nil: it is
      [option (gmap string Value)], [None] being the nil map.  Methods that
      mutate the map return the container after the call next to their Go
      result.
    - [int] is 64 bits wide (amd64, arm64); integers are [Z].
    - Functions of the Go standard library whose behaviour depends on the
      Go release or on the platform are fields of the class [GoLibrary]. *)

From Stdlib Require Import ZArith Floats Ascii String Strings.Byte.
From stdpp Require Import base gmap strings list pretty.

Set Warnings "-register-all".

(** ** Package jwt *)

Module jwt.

Local Open Scope Z_scope.

(** *** Dynamic values *)

(** The dynamic types an [interface{}] stored in a claim can have.  The
    type switches of the source name [int], [int32], [int64], [float64],
    [string], [[]string] and [[]interface{}]; [encoding/json] also produces
    [bool], [nil] and [map[string]interface{}].  Every other dynamic type
    is [VOther], tagged with the name of the type. *)
Inductive Value : Type :=
  | VNil
  | VBool (b : bool)
  | VInt (i : Z)
  | VInt32 (i : Z)
  | VInt64 (i : Z)
  | VFloat64 (f : float)
  | VString (s : string)
  | VStrings (l : list string)
  | VSlice (l : list Value)
  | VMap (m : gmap string Value)
  | VOther (type_name : string).

(** [type Claims map[string]interface{}] *)
Abbreviation Claims := (option (gmap string Value)).

(** *** time.Time *)

Inductive Location : Type :=
  | UTC
  | Local
  | FixedZone (offset : Z).

(** An instant as seconds and nanoseconds since the Unix epoch, with the
    location it is displayed in. *)
Record Time : Type := mkTime {
  unix_sec : Z;
  nsec : Z;
  loc : Location
}.

(** [time.Time{}]: January 1, year 1, 00:00:00 UTC. *)
Definition zero_Time : Time := mkTime (-62135596800) 0 UTC.

(** [time.Unix(sec, nsec)]; the callers below pass [nsec = 0], where the
    normalisation does nothing. *)
Definition time_Unix (sec nsec : Z) : Time :=
  if (nsec <? 0) || (1000000000 <=? nsec) then
    let n := Z.quot nsec 1000000000 in
    let sec := sec + n in
    let nsec := nsec - n * 1000000000 in
    if nsec <? 0 then mkTime (sec - 1) (nsec + 1000000000) Local
    else mkTime sec nsec Local
  else mkTime sec nsec Local.

(** [t.Unix()] *)
Definition Time_Unix (t : Time) : Z := unix_sec t.

(** [t.Equal(u)]: the same instant, whatever the locations. *)
Definition Time_Equal (t u : Time) : bool :=
  (unix_sec t =? unix_sec u) && (nsec t =? nsec u).

(** *** Errors *)

(** The error codes of the package this file uses (declared in the
    package's errors file); only their identity matters here. *)
Inductive ErrCode : Type :=
  | ErrJSONMarshalling
  | ErrJSONUnmarshalling.

Inductive error : Type :=
  | LibraryError (msg : string)
  | Annotated (code : ErrCode) (cause : error).

(** [errors.Annotate(err, code, errorMessages)] *)
Definition errors_Annotate (err : error) (code : ErrCode) : error :=
  Annotated code err.

(** *** JSON documents *)

(** The syntax tree of a JSON text; a number keeps its literal, which the
    decoder hands to [strconv.ParseFloat]. *)
Inductive json : Type :=
  | JNull
  | JBool (b : bool)
  | JNumber (literal : string)
  | JString (s : string)
  | JArray (elems : list json)
  | JObject (members : list (string * json)).

(** *** The Go standard library *)

Class GoLibrary : Type := {
  (** [strconv.ParseFloat(s, 64)]; [None] when [err != nil]. *)
  strconv_ParseFloat : string → option float;
  (** [time.Parse(time.RFC3339, s)]; [None] when [err != nil]. *)
  time_Parse_RFC3339 : string → option Time;
  (** What [int64(f)] yields when the truncation of [f] does not fit in
      an [int64] or [f] is not a number (implementation-dependent). *)
  int64_of_unrepresentable : float → Z;
  (** The syntax tree [encoding/json] reads from a text; [None] when the
      text is not valid JSON. *)
  json_syntax : list byte → option json
}.

(** **** strconv.ParseInt(s, 10, 64) *)

Inductive NumError : Type :=
  | ErrSyntax
  | ErrRange.

Definition is_digit (c : ascii) : bool :=
  (48 <=? nat_of_ascii c)%nat && (nat_of_ascii c <=? 57)%nat.

Definition digit_value (c : ascii) : Z := Z.of_nat (nat_of_ascii c) - 48.

Definition maxUint64 : Z := 2 ^ 64 - 1.

(** The digit loop of [ParseUint] in base 10, [n] being the value read so
    far.  A byte that is not a decimal digit is a syntax error.  A digit
    with which the value leaves the range of [uint64] is a range error,
    returned at that digit with the largest [uint64] as value: the bytes
    after it are not looked at. *)
Fixpoint parse_digits (n : Z) (s : string) : Z * option NumError :=
  match s with
  | EmptyString => (n, None)
  | String d rest =>
      if is_digit d then
        if maxUint64 / 10 + 1 <=? n then (maxUint64, Some ErrRange)
        else
          let n1 := n * 10 + digit_value d in
          if maxUint64 <? n1 then (maxUint64, Some ErrRange)
          else parse_digits n1 rest
      else (0, Some ErrSyntax)
  end.

(** [strconv.ParseUint(s, 10, 64)]: the value and the error. *)
Definition strconv_ParseUint (s : string) : Z * option NumError :=
  match s with
  | EmptyString => (0, Some ErrSyntax)
  | _ => parse_digits 0 s
  end.

Definition strconv_ParseInt (s : string) : Z * option NumError :=
  match s with
  | EmptyString => (0, Some ErrSyntax)
  | String c0 rest =>
      let '(neg, s) :=
        if Ascii.eqb c0 "+" then (false, rest)
        else if Ascii.eqb c0 "-" then (true, rest)
        else (false, String c0 rest) in
      let '(un, err) := strconv_ParseUint s in
      match err with
      | Some ErrSyntax => (0, err)
      | _ =>
          let cutoff := 2 ^ 63 in
          if negb neg && (cutoff <=? un) then (cutoff - 1, Some ErrRange)
          else if neg && (cutoff <? un) then (- cutoff, Some ErrRange)
          else (if neg then - un else un, None)
      end
  end.

(** **** Conversions between float64 and integers *)

Definition in_int64 (z : Z) : bool := (- 2 ^ 63 <=? z) && (z <? 2 ^ 63).

(** The integer part of a finite float, rounded toward zero: a float with
    sign [s], mantissa [m] and exponent [e] is [± m * 2 ^ e]. *)
Definition float_trunc (f : float) : option Z :=
  match Prim2SF f with
  | S754_zero _ => Some 0
  | S754_finite s m e =>
      let mag := Z.shiftl (Z.pos m) e in
      Some (if s then - mag else mag)
  | S754_infinity _ | S754_nan => None
  end.

(** [int64(f)] and, [int] being 64 bits wide, [int(f)]. *)
Definition int64_of_float64 `{GoLibrary} (f : float) : Z :=
  match float_trunc f with
  | Some z => if in_int64 z then z else int64_of_unrepresentable f
  | None => int64_of_unrepresentable f
  end.

(** [float64(i)]: the nearest float, ties to even. *)
Definition float64_of_int (i : Z) : float :=
  SF2Prim (binary_normalize prec emax i 0 false).

(** *** The claims container *)

(** [NewClaims] *)
Definition NewClaims : Claims := Some ∅.

(** [Len] *)
Definition Len (c : Claims) : Z :=
  match c with
  | None => 0
  | Some m => Z.of_nat (size m)
  end.

(** [Get] *)
Definition Get (c : Claims) (key : string) : Value * bool :=
  match c with
  | None => (VNil, false)
  | Some m =>
      match m !! key with
      | Some value => (value, true)
      | None => (VNil, false)
      end
  end.

(** [GetInt] *)
Definition GetInt `{GoLibrary} (c : Claims) (key : string) : Z * bool :=
  let '(value, ok) := Get c key in
  if negb ok then (0, false)
  else
    match value with
    | VInt v => (v, true)
    | VFloat64 v => (int64_of_float64 v, true)
    | VString v =>
        match strconv_ParseInt v with
        | (i, None) => (i, true)
        | (_, Some _) => (0, false)
        end
    | _ => (0, false)
    end.

(** [GetFloat64] *)
Definition GetFloat64 `{GoLibrary} (c : Claims) (key : string) : float * bool :=
  let '(value, ok) := Get c key in
  if negb ok then (0%float, false)
  else
    match value with
    | VInt v => (float64_of_int v, true)
    | VFloat64 v => (v, true)
    | VString v =>
        match strconv_ParseFloat v with
        | Some f => (f, true)
        | None => (0%float, false)
        end
    | _ => (0%float, false)
    end.

(** [GetTime] *)
Definition GetTime `{GoLibrary} (c : Claims) (key : string) : Time * bool :=
  let '(value, ok) := Get c key in
  if negb ok then (zero_Time, false)
  else
    match value with
    | VInt v => (time_Unix v 0, true)
    | VInt32 v => (time_Unix v 0, true)
    | VInt64 v => (time_Unix v 0, true)
    | VFloat64 v => (time_Unix (int64_of_float64 v) 0, true)
    | VString v =>
        match time_Parse_RFC3339 v with
        | None => (zero_Time, false)
        | Some t => (t, true)
        end
    | _ => (zero_Time, false)
    end.

(** [Set]: the container after the call and the old value.  ([Set] is a
    reserved word, hence the underscore.) *)
Definition Set_ (c : Claims) (key : string) (value : Value) : Claims * Value :=
  match c with
  | None => (None, VNil)
  | Some m =>
      let '(old, _) := Get c key in
      (Some (<[key:=value]> m), old)
  end.

(** [SetTime] *)
Definition SetTime `{GoLibrary} (c : Claims) (key : string) (t : Time)
  : Claims * Time :=
  let '(old, _) := GetTime c key in
  let '(c, _) := Set_ c key (VInt64 (Time_Unix t)) in
  (c, old).

(** The builtin [delete(m, key)], which does nothing on a nil map. *)
Definition builtin_delete (c : Claims) (key : string) : Claims :=
  match c with
  | None => None
  | Some m => Some (delete key m)
  end.

(** [Delete] *)
Definition Delete (c : Claims) (key : string) : Claims * Value :=
  let '(old, _) := Get c key in
  (builtin_delete c key, old).

(** [Contains] *)
Definition Contains (c : Claims) (key : string) : bool :=
  let '(_, ok) := Get c key in
  ok.

(** *** The audience claim *)

(** The loop of [makeStrings]: [strs] is the slice made beforehand, [i] the
    index of the head of [auds]; [None] is the early [return nil, false]. *)
Fixpoint makeStrings_loop (i : nat) (auds : list Value) (strs : list string)
  : option (list string) :=
  match auds with
  | [] => Some strs
  | VString str :: rest => makeStrings_loop (S i) rest (<[i:=str]> strs)
  | _ :: _ => None
  end.

(** [makeStrings], the helper of [Audience]; a nil slice is the empty list. *)
Definition makeStrings (auds : list Value) : list string * bool :=
  if (length auds =? 0)%nat then ([], false)
  else
    match makeStrings_loop 0 auds (replicate (length auds) EmptyString) with
    | Some strs => (strs, true)
    | None => ([], false)
    end.

(** [Audience] *)
Definition Audience (c : Claims) : list string * bool :=
  let '(value, ok) := Get c "aud" in
  if negb ok then ([], false)
  else
    match value with
    | VStrings aud => (aud, true)
    | VString aud => ([aud], true)
    | VSlice aud => makeStrings aud
    | VNil => ([], false)
    | aud => makeStrings [aud]
    end.

(** [SetAudience]; the variadic parameter is the list [auds]. *)
Definition SetAudience (c : Claims) (auds : list string)
  : Claims * list string :=
  let '(old, _) := Audience c in
  match auds with
  | [] => (fst (Delete c "aud"), old)
  | [aud0] => (fst (Set_ c "aud" (VString aud0)), old)
  | _ => (fst (Set_ c "aud" (VStrings auds)), old)
  end.

(** [DeleteAudience] *)
Definition DeleteAudience (c : Claims) : Claims * list string :=
  let '(old, _) := Audience c in
  (fst (Delete c "aud"), old).

(** [Expiration] *)
Definition Expiration `{GoLibrary} (c : Claims) : Time * bool :=
  GetTime c "exp".

(** [SetExpiration] *)
Definition SetExpiration `{GoLibrary} (c : Claims) (t : Time) : Claims * Time :=
  SetTime c "exp" t.

(** *** The JSON codec *)

(** The Go value [encoding/json] stores in an [interface{}] for a JSON
    value: [nil], [bool], [float64], [string], [[]interface{}] or
    [map[string]interface{}] (a later member of an object overrides an
    earlier one of the same name).  A number literal outside the range of
    [float64] leaves [nil]. *)
Fixpoint value_of_json `{GoLibrary} (j : json) : Value :=
  match j with
  | JNull => VNil
  | JBool b => VBool b
  | JNumber literal =>
      match strconv_ParseFloat literal with
      | Some f => VFloat64 f
      | None => VNil
      end
  | JString s => VString s
  | JArray elems => VSlice (map value_of_json elems)
  | JObject members =>
      VMap (foldl (λ m kv, <[fst kv := value_of_json (snd kv)]> m) ∅ members)
  end.

(** Whether every number literal of [j] converts; the decoder saves an
    error for one that does not and goes on. *)
Fixpoint json_numbers_ok `{GoLibrary} (j : json) : bool :=
  match j with
  | JNumber literal => bool_decide (is_Some (strconv_ParseFloat literal))
  | JArray elems => forallb json_numbers_ok elems
  | JObject members => forallb (λ kv, json_numbers_ok (snd kv)) members
  | _ => true
  end.

(** The members of a JSON object stored into a map, in the order of the
    text. *)
Definition json_store `{GoLibrary} (members : list (string * json))
    (m : gmap string Value) : gmap string Value :=
  foldl (λ m kv, <[fst kv := value_of_json (snd kv)]> m) m members.

(** [json.Unmarshal(b, &raw)] for [raw] of type [map[string]interface{}],
    after the documentation of [encoding/json]: an invalid text is
    rejected before anything is stored; the JSON value [null] sets the map
    to nil; an object is stored into the map [raw] refers to (a new one
    when [raw] is nil), keeping the entries it has; any other JSON value
    is a type error.  The result is [raw] after the call and the error. *)
Definition json_Unmarshal `{GoLibrary} (b : list byte) (raw : Claims)
  : Claims * option error :=
  match json_syntax b with
  | None => (raw, Some (LibraryError "invalid JSON text"))
  | Some JNull => (None, None)
  | Some (JObject members) =>
      let m := match raw with Some m => m | None => ∅ end in
      (Some (json_store members m),
       if forallb (λ kv, json_numbers_ok (snd kv)) members then None
       else Some (LibraryError "json: cannot unmarshal number"))
  | Some _ =>
      (raw, Some (LibraryError "json: cannot unmarshal into Go value of type map"))
  end.

Section codec.

Context `{GoLibrary}.

(** [json.Marshal(map[string]interface{}(c))]: the bytes and the error. *)
Variable json_Marshal : Claims → list byte * option error.

(** [MarshalJSON]; the result is the byte slice ([None] for nil) and the
    error. *)
Definition MarshalJSON (c : Claims) : option (list byte) * option error :=
  if Len c =? 0 then (Some (list_byte_of_string "{}"), None)
  else
    let '(b, err) := json_Marshal c in
    match err with
    | Some err => (None, Some (errors_Annotate err ErrJSONMarshalling))
    | None => (Some b, None)
    end.

(** [UnmarshalJSON]; [b] is [None] for a nil slice.  [raw] refers to the
    map of [*c]: when the decoder fails, [*c] is not assigned, but what
    the decoder stored into that map before is there; a map the decoder
    made for a nil [raw] is dropped. *)
Definition UnmarshalJSON (c : Claims) (b : option (list byte))
  : Claims * option error :=
  match b with
  | None => (c, None)
  | Some b =>
      let raw := c in
      let '(raw, err) := json_Unmarshal b raw in
      match err with
      | Some err =>
          (match c with Some _ => raw | None => None end,
           Some (errors_Annotate err ErrJSONUnmarshalling))
      | None => (raw, None)
      end
  end.

End codec.

(** *** The string getter and the other reserved claims *)

(** [fmt.Sprintf("%v", value)] *)
Class FmtLibrary : Type := fmt_Sprintf_v : Value → string.

(** [GetString] *)
Definition GetString `{FmtLibrary} (c : Claims) (key : string) : string * bool :=
  let '(value, ok) := Get c key in
  if negb ok then (EmptyString, false)
  else
    match value with
    | VString str => (str, true)
    | _ => (fmt_Sprintf_v value, true)
    end.

(** [DeleteExpiration] *)
Definition DeleteExpiration `{GoLibrary} (c : Claims) : Claims * Time :=
  let '(old, _) := Expiration c in
  (fst (Delete c "exp"), old).

(** [IssuedAt] *)
Definition IssuedAt `{GoLibrary} (c : Claims) : Time * bool :=
  GetTime c "iat".

(** [SetIssuedAt] *)
Definition SetIssuedAt `{GoLibrary} (c : Claims) (t : Time) : Claims * Time :=
  SetTime c "iat" t.

(** [DeleteIssuedAt] *)
Definition DeleteIssuedAt `{GoLibrary} (c : Claims) : Claims * Time :=
  let '(old, _) := IssuedAt c in
  (fst (Delete c "iat"), old).

(** [Issuer] *)
Definition Issuer `{FmtLibrary} (c : Claims) : string * bool :=
  GetString c "iss".

(** [SetIssuer] *)
Definition SetIssuer `{FmtLibrary} (c : Claims) (issuer : string)
  : Claims * string :=
  let '(old, _) := GetString c "iss" in
  (fst (Set_ c "iss" (VString issuer)), old).

(** [DeleteIssuer] *)
Definition DeleteIssuer `{FmtLibrary} (c : Claims) : Claims * string :=
  let '(old, _) := Issuer c in
  (fst (Delete c "iss"), old).

(** [Identifier] *)
Definition Identifier `{FmtLibrary} (c : Claims) : string * bool :=
  GetString c "jti".

(** [SetIdentifier] *)
Definition SetIdentifier `{FmtLibrary} (c : Claims) (id : string)
  : Claims * string :=
  let '(old, _) := GetString c "jti" in
  (fst (Set_ c "jti" (VString id)), old).

(** [DeleteIdentifier] *)
Definition DeleteIdentifier `{FmtLibrary} (c : Claims) : Claims * string :=
  let '(old, _) := Identifier c in
  (fst (Delete c "jti"), old).

(** [NotBefore] *)
Definition NotBefore `{GoLibrary} (c : Claims) : Time * bool :=
  GetTime c "nbf".

(** [SetNotBefore] *)
Definition SetNotBefore `{GoLibrary} (c : Claims) (t : Time) : Claims * Time :=
  SetTime c "nbf" t.

(** [DeleteNotBefore] *)
Definition DeleteNotBefore `{GoLibrary} (c : Claims) : Claims * Time :=
  let '(old, _) := NotBefore c in
  (fst (Delete c "nbf"), old).

(** [Subject] *)
Definition Subject `{FmtLibrary} (c : Claims) : string * bool :=
  GetString c "sub".

(** [SetSubject] *)
Definition SetSubject `{FmtLibrary} (c : Claims) (subject : string)
  : Claims * string :=
  let '(old, _) := GetString c "sub" in
  (fst (Set_ c "sub" (VString subject)), old).

(** [DeleteSubject] *)
Definition DeleteSubject `{FmtLibrary} (c : Claims) : Claims * string :=
  let '(old, _) := Subject c in
  (fst (Delete c "sub"), old).

End jwt.

(** ** A reference Go library

    Executable stand-ins for the library functions of [jwt.GoLibrary], used
    to run the model on concrete claims.  They cover decimal floating-point
    literals, RFC 3339 timestamps with four-digit years, and JSON texts as
    RFC 8259 defines them; the properties of the package are proved for
    every [GoLibrary], not only for this one. *)

Module reference.

Import jwt.
Local Open Scope Z_scope.

(** *** Decimal floating-point literals *)

Fixpoint span_digits (s : string) : string * string :=
  match s with
  | String c rest =>
      if is_digit c then let '(ds, r) := span_digits rest in (String c ds, r)
      else (EmptyString, s)
  | EmptyString => (EmptyString, EmptyString)
  end.

Fixpoint digits_to_Z (n : Z) (s : string) : Z :=
  match s with
  | EmptyString => n
  | String c rest => digits_to_Z (n * 10 + digit_value c) rest
  end.

Definition strip_sign (s : string) : bool * string :=
  match s with
  | String "-" rest => (true, rest)
  | String "+" rest => (false, rest)
  | _ => (false, s)
  end.

(** The float nearest to [m * 10 ^ e10], for [0 < m]: the quotient by a
    power of ten is taken with 64 bits or more and a sticky last bit, so
    that rounding it rounds the exact value. *)
Definition decimal_to_float (m e10 : Z) : spec_float :=
  if 0 <=? e10 then binary_normalize prec emax (m * 10 ^ e10) 0 false
  else
    let q := 10 ^ (- e10) in
    let k := Z.max 0 (Z.log2 q - Z.log2 m + 66) in
    let n := (m * 2 ^ k) / q in
    let sticky := if (m * 2 ^ k) mod q =? 0 then 0 else 1 in
    binary_normalize prec emax (2 * n + sticky) (- (k + 1)) false.

(** [sign digits [. digits] [(e|E) sign digits]], with a digit before or
    after the point; [None] for anything else and for a value that rounds
    to an infinity. *)
Definition ParseFloat (s : string) : option float :=
  let '(neg, s) := strip_sign s in
  let '(ip, s) := span_digits s in
  let '(fp, s) :=
    match s with
    | String "." rest => span_digits rest
    | _ => (EmptyString, s)
    end in
  let '(e10, s) :=
    match s with
    | String c rest =>
        if Ascii.eqb c "e" || Ascii.eqb c "E" then
          let '(eneg, rest) := strip_sign rest in
          let '(ds, rest) := span_digits rest in
          match ds with
          | EmptyString => (None, rest)
          | _ => (Some (if eneg then - digits_to_Z 0 ds else digits_to_Z 0 ds), rest)
          end
        else (Some 0, s)
    | EmptyString => (Some 0, s)
    end in
  match e10, s, (ip +:+ fp)%string with
  | Some e10, EmptyString, String _ _ =>
      let m := digits_to_Z 0 (ip +:+ fp) in
      let sf :=
        if m =? 0 then S754_zero false
        else decimal_to_float m (e10 - Z.of_nat (String.length fp)) in
      match sf with
      | S754_infinity _ | S754_nan => None
      | _ => Some (SF2Prim (if neg then SFopp sf else sf))
      end
  | _, _, _ => None
  end.

(** *** RFC 3339 timestamps *)

(** Days from 1970-01-01 to the given day of the proleptic Gregorian
    calendar. *)
Definition days_from_civil (y m d : Z) : Z :=
  let y := if m <=? 2 then y - 1 else y in
  let era := y / 400 in
  let yoe := y - era * 400 in
  let doy := (153 * (if 2 <? m then m - 3 else m + 9) + 2) / 5 + d - 1 in
  let doe := yoe * 365 + yoe / 4 - yoe / 100 + doy in
  era * 146097 + doe - 719468.

Definition is_leap (y : Z) : bool :=
  (y mod 4 =? 0) && (negb (y mod 100 =? 0) || (y mod 400 =? 0)).

Definition days_in (y m : Z) : Z :=
  if m =? 2 then (if is_leap y then 29 else 28)
  else if (m =? 4) || (m =? 6) || (m =? 9) || (m =? 11) then 30
  else 31.

(** Exactly [n] decimal digits at the head of [s]. *)
Fixpoint fixed_digits (n : nat) (acc : Z) (s : string) : option (Z * string) :=
  match n, s with
  | O, _ => Some (acc, s)
  | S n, String c rest =>
      if is_digit c then fixed_digits n (acc * 10 + digit_value c) rest else None
  | S _, EmptyString => None
  end.

Definition expect (c : ascii) (s : string) : option string :=
  match s with
  | String c' rest => if Ascii.eqb c c' then Some rest else None
  | EmptyString => None
  end.

(** The nanoseconds a fraction of a second stands for: its first nine
    digits, padded with zeros. *)
Definition fraction_nsec (ds : string) : Z :=
  let ds9 := String.substring 0 9 ds in
  digits_to_Z 0 ds9 * 10 ^ (9 - Z.of_nat (String.length ds9)).

(** [YYYY-MM-DDTHH:MM:SS[.fraction](Z|+HH:MM|-HH:MM)].  A numeric offset
    gives a fixed zone (the local zone is taken to have another offset). *)
Definition Parse_RFC3339 (s : string) : option Time :=
  '(y, s) ← fixed_digits 4 0 s; s ← expect "-" s;
  '(mo, s) ← fixed_digits 2 0 s; s ← expect "-" s;
  '(d, s) ← fixed_digits 2 0 s; s ← expect "T" s;
  '(h, s) ← fixed_digits 2 0 s; s ← expect ":" s;
  '(mi, s) ← fixed_digits 2 0 s; s ← expect ":" s;
  '(sec, s) ← fixed_digits 2 0 s;
  '(ns, s) ← match s with
             | String "." rest =>
                 let '(ds, rest) := span_digits rest in
                 match ds with
                 | EmptyString => None
                 | _ => Some (fraction_nsec ds, rest)
                 end
             | _ => Some (0, s)
             end;
  '(zone, s) ← match s with
               | String "Z" rest => Some (UTC, rest)
               | String c rest =>
                   if Ascii.eqb c "+" || Ascii.eqb c "-" then
                     '(zh, rest) ← fixed_digits 2 0 rest; rest ← expect ":" rest;
                     '(zm, rest) ← fixed_digits 2 0 rest;
                     if (zh <? 24) && (zm <? 60) then
                       let off := zh * 3600 + zm * 60 in
                       Some (FixedZone (if Ascii.eqb c "-" then - off else off), rest)
                     else None
                   else None
               | EmptyString => None
               end;
  if (1 <=? mo) && (mo <=? 12) && (1 <=? d) && (d <=? days_in y mo)
     && (h <? 24) && (mi <? 60) && (sec <? 60)
  then
    match s with
    | EmptyString =>
        let offset := match zone with FixedZone off => off | _ => 0 end in
        Some (mkTime (days_from_civil y mo d * 86400 + h * 3600 + mi * 60 + sec
                      - offset) ns zone)
    | _ => None
    end
  else None.

(** *** JSON texts *)

Definition is_ws (b : byte) : bool :=
  match b with
  | x20 | x09 | x0a | x0d => true
  | _ => false
  end.

Fixpoint skip_ws (s : list byte) : list byte :=
  match s with
  | b :: rest => if is_ws b then skip_ws rest else s
  | [] => []
  end.

Definition byte_is_digit (b : byte) : bool := is_digit (ascii_of_byte b).

Fixpoint span_digit_bytes (s : list byte) : list byte * list byte :=
  match s with
  | b :: rest =>
      if byte_is_digit b then let '(ds, r) := span_digit_bytes rest in (b :: ds, r)
      else ([], s)
  | [] => ([], [])
  end.

(** A number: [[-] int [. digits] [(e|E) [sign] digits]], where [int] is
    [0] or starts with another digit.  The result is the literal and the
    bytes after it. *)
Definition scan_number (s : list byte) : option (list byte * list byte) :=
  let '(sign, s) :=
    match s with
    | x2d :: rest => ([x2d], rest)
    | _ => (@nil byte, s)
    end in
  '(ip, s) ← match s with
             | x30 :: rest => Some ([x30], rest)
             | _ =>
                 let '(ds, rest) := span_digit_bytes s in
                 match ds with
                 | [] => None
                 | _ => Some (ds, rest)
                 end
             end;
  '(fp, s) ← match s with
             | x2e :: rest =>
                 let '(ds, rest) := span_digit_bytes rest in
                 match ds with
                 | [] => None
                 | _ => Some (x2e :: ds, rest)
                 end
             | _ => Some (@nil byte, s)
             end;
  '(ep, s) ← match s with
             | b :: rest =>
                 if Byte.eqb b x65 || Byte.eqb b x45 then
                   let '(esign, rest) :=
                     match rest with
                     | x2b :: rest' => ([x2b], rest')
                     | x2d :: rest' => ([x2d], rest')
                     | _ => (@nil byte, rest)
                     end in
                   let '(ds, rest) := span_digit_bytes rest in
                   match ds with
                   | [] => None
                   | _ => Some (b :: esign ++ ds, rest)
                   end
                 else Some (@nil byte, s)
             | [] => Some (@nil byte, s)
             end;
  Some (sign ++ ip ++ fp ++ ep, s).

Definition hex_value (b : byte) : option Z :=
  let n := Z.of_N (Byte.to_N b) in
  if (48 <=? n) && (n <=? 57) then Some (n - 48)
  else if (97 <=? n) && (n <=? 102) then Some (n - 87)
  else if (65 <=? n) && (n <=? 70) then Some (n - 55)
  else None.

Definition hex4 (a b c d : byte) : option Z :=
  a ← hex_value a; b ← hex_value b; c ← hex_value c; d ← hex_value d;
  Some (((a * 16 + b) * 16 + c) * 16 + d).

Definition byte_of_Z (z : Z) : byte :=
  match Byte.of_N (Z.to_N z) with
  | Some b => b
  | None => x00
  end.

(** The UTF-8 encoding of a code point. *)
Definition utf8 (cp : Z) : list byte :=
  if cp <? 128 then [byte_of_Z cp]
  else if cp <? 2048 then
    [byte_of_Z (192 + cp / 64); byte_of_Z (128 + cp mod 64)]
  else if cp <? 65536 then
    [byte_of_Z (224 + cp / 4096); byte_of_Z (128 + (cp / 64) mod 64);
     byte_of_Z (128 + cp mod 64)]
  else
    [byte_of_Z (240 + cp / 262144); byte_of_Z (128 + (cp / 4096) mod 64);
     byte_of_Z (128 + (cp / 64) mod 64); byte_of_Z (128 + cp mod 64)].

Definition is_high_surrogate (u : Z) : bool := (55296 <=? u) && (u <? 56320).
Definition is_low_surrogate (u : Z) : bool := (56320 <=? u) && (u <? 57344).

(** The bytes of a string after its opening quote, up to the closing one;
    [acc] holds the decoded bytes, last first.  A surrogate without its
    pair decodes to U+FFFD; the bytes outside escapes are copied. *)
Fixpoint scan_string (s acc : list byte) : option (string * list byte) :=
  match s with
  | [] => None
  | x22 :: rest => Some (string_of_list_byte (rev acc), rest)
  | x5c :: x75 :: h1 :: h2 :: h3 :: h4 :: rest =>
      u ← hex4 h1 h2 h3 h4;
      if is_high_surrogate u then
        match rest with
        | x5c :: x75 :: l1 :: l2 :: l3 :: l4 :: rest' =>
            match hex4 l1 l2 l3 l4 with
            | Some l =>
                if is_low_surrogate l then
                  scan_string rest'
                    (rev (utf8 (65536 + (u - 55296) * 1024 + (l - 56320))) ++ acc)
                else scan_string rest (rev (utf8 65533) ++ acc)
            | None => None
            end
        | _ => scan_string rest (rev (utf8 65533) ++ acc)
        end
      else if is_low_surrogate u then scan_string rest (rev (utf8 65533) ++ acc)
      else scan_string rest (rev (utf8 u) ++ acc)
  | x5c :: e :: rest =>
      match e with
      | x22 | x5c | x2f => scan_string rest (e :: acc)
      | x62 => scan_string rest (x08 :: acc)
      | x66 => scan_string rest (x0c :: acc)
      | x6e => scan_string rest (x0a :: acc)
      | x72 => scan_string rest (x0d :: acc)
      | x74 => scan_string rest (x09 :: acc)
      | _ => None
      end
  | b :: rest =>
      if (Byte.to_N b <? 32)%N then None else scan_string rest (b :: acc)
  end.

(** The bytes after the literal [lit] at the head of [s]. *)
Fixpoint expect_bytes (lit s : list byte) : option (list byte) :=
  match lit, s with
  | [], _ => Some s
  | l :: lit, b :: s => if Byte.eqb l b then expect_bytes lit s else None
  | _ :: _, [] => None
  end.

(** A JSON value at the head of [s] (after white space) and the bytes
    after it; [fuel] bounds the number of values read. *)
Fixpoint scan_value (fuel : nat) (s : list byte) : option (json * list byte) :=
  match fuel with
  | O => None
  | S fuel =>
      match skip_ws s with
      | x7b :: rest =>
          match skip_ws rest with
          | x7d :: rest => Some (JObject [], rest)
          | rest => '(ms, rest) ← scan_members fuel rest; Some (JObject ms, rest)
          end
      | x5b :: rest =>
          match skip_ws rest with
          | x5d :: rest => Some (JArray [], rest)
          | rest => '(es, rest) ← scan_elements fuel rest; Some (JArray es, rest)
          end
      | x22 :: rest => '(str, rest) ← scan_string rest []; Some (JString str, rest)
      | x74 :: _ => rest ← expect_bytes (list_byte_of_string "true") (skip_ws s);
                    Some (JBool true, rest)
      | x66 :: _ => rest ← expect_bytes (list_byte_of_string "false") (skip_ws s);
                    Some (JBool false, rest)
      | x6e :: _ => rest ← expect_bytes (list_byte_of_string "null") (skip_ws s);
                    Some (JNull, rest)
      | s' => '(lit, rest) ← scan_number s';
              Some (JNumber (string_of_list_byte lit), rest)
      end
  end
with scan_elements (fuel : nat) (s : list byte)
  : option (list json * list byte) :=
  match fuel with
  | O => None
  | S fuel =>
      '(j, rest) ← scan_value fuel s;
      match skip_ws rest with
      | x2c :: rest => '(js, rest) ← scan_elements fuel rest; Some (j :: js, rest)
      | x5d :: rest => Some ([j], rest)
      | _ => None
      end
  end
with scan_members (fuel : nat) (s : list byte)
  : option (list (string * json) * list byte) :=
  match fuel with
  | O => None
  | S fuel =>
      match skip_ws s with
      | x22 :: rest =>
          '(key, rest) ← scan_string rest [];
          match skip_ws rest with
          | x3a :: rest =>
              '(j, rest) ← scan_value fuel rest;
              match skip_ws rest with
              | x2c :: rest =>
                  '(ms, rest) ← scan_members fuel rest; Some ((key, j) :: ms, rest)
              | x7d :: rest => Some ([(key, j)], rest)
              | _ => None
              end
          | _ => None
          end
      | _ => None
      end
  end.

(** A whole text: one value, with white space around it. *)
Definition json_text (b : list byte) : option json :=
  '(j, rest) ← scan_value (S (length b)) b;
  match skip_ws rest with
  | [] => Some j
  | _ => None
  end.

(** The reference library; [int64] of a float out of range is the
    smallest [int64], as on amd64. *)
Definition library : GoLibrary := {|
  strconv_ParseFloat := ParseFloat;
  time_Parse_RFC3339 := Parse_RFC3339;
  int64_of_unrepresentable := λ _, - 2 ^ 63;
  json_syntax := json_text
|}.

(** [%v] for the values whose rendering is fixed by their type alone:
    nil, booleans, integers and strings.  The other values are outside
    this stand-in, which gives the empty string for them. *)
Definition Sprint (v : Value) : string :=
  match v with
  | VNil => "<nil>"
  | VBool true => "true"
  | VBool false => "false"
  | VInt i | VInt32 i | VInt64 i => pretty i
  | VString s => s
  | _ => EmptyString
  end.

(** A text between double quotes, for writing JSON documents. *)
Definition quoted (s : string) : string := String "034" (s +:+ String "034" EmptyString).

End reference.

(** ** Package rest: dispatching a job to a handler *)

Module rest.

(** What [handleJob] reads from a job: [job.Request().Method],
    [job.Domain()] and [job.Resource()]. *)
Record Job : Type := mkJob {
  Method : string;
  Domain : string;
  Resource : string
}.

(** The error codes of the package [handleJob] uses (declared in the
    package's errors file); only their identity matters here. *)
Inductive ErrCode : Type :=
  | ErrNoGetHandler
  | ErrNoHeadHandler
  | ErrNoPutHandler
  | ErrNoPostHandler
  | ErrNoPatchHandler
  | ErrNoDeleteHandler
  | ErrNoOptionsHandler
  | ErrMethodNotSupported.

(** An error is made by [errors.New(code, errorMessages, arg)] or comes
    from a method of the handler. *)
Inductive error : Type :=
  | errors_New (code : ErrCode) (arg : string)
  | HandlerError (msg : string).

(** The method of an additional interface, as the result it returns. *)
Definition method : Type := Job → bool * option error.

(** A resource handler: its [ID()] and, for each additional interface,
    the method when the handler implements the interface.  The type
    assertion [handler.(GetResourceHandler)] is the field [Get]. *)
Record ResourceHandler : Type := mkHandler {
  ID : string;
  Get : option method;
  Read : option method;
  Head : option method;
  Put : option method;
  Update : option method;
  Post : option method;
  Create : option method;
  Patch : option method;
  Modify : option method;
  Delete : option method;
  Options : option method;
  Info : option method
}.

(** The constants of [net/http]. *)
Definition http_MethodGet : string := "GET".
Definition http_MethodHead : string := "HEAD".
Definition http_MethodPost : string := "POST".
Definition http_MethodPut : string := "PUT".
Definition http_MethodPatch : string := "PATCH".
Definition http_MethodDelete : string := "DELETE".
Definition http_MethodOptions : string := "OPTIONS".

(** The closure [id] of [handleJob]: [fmt.Sprintf("%s@%s/%s", ...)]. *)
Definition handler_id (handler : ResourceHandler) (job : Job) : string :=
  ID handler +:+ "@" +:+ Domain job +:+ "/" +:+ Resource job.

(** [handleJob] *)
Definition handleJob (handler : ResourceHandler) (job : Job)
  : bool * option error :=
  let id := handler_id handler job in
  if String.eqb (Method job) http_MethodGet then
    match Get handler with
    | Some grh => grh job
    | None =>
        match Read handler with
        | Some rrh => rrh job
        | None => (false, Some (errors_New ErrNoGetHandler id))
        end
    end
  else if String.eqb (Method job) http_MethodHead then
    match Head handler with
    | Some hrh => hrh job
    | None => (false, Some (errors_New ErrNoHeadHandler id))
    end
  else if String.eqb (Method job) http_MethodPut then
    match Put handler with
    | Some prh => prh job
    | None =>
        match Update handler with
        | Some urh => urh job
        | None => (false, Some (errors_New ErrNoPutHandler id))
        end
    end
  else if String.eqb (Method job) http_MethodPost then
    match Post handler with
    | Some prh => prh job
    | None =>
        match Create handler with
        | Some crh => crh job
        | None => (false, Some (errors_New ErrNoPostHandler id))
        end
    end
  else if String.eqb (Method job) http_MethodPatch then
    match Patch handler with
    | Some prh => prh job
    | None =>
        match Modify handler with
        | Some mrh => mrh job
        | None => (false, Some (errors_New ErrNoPatchHandler id))
        end
    end
  else if String.eqb (Method job) http_MethodDelete then
    match Delete handler with
    | Some drh => drh job
    | None => (false, Some (errors_New ErrNoDeleteHandler id))
    end
  else if String.eqb (Method job) http_MethodOptions then
    match Options handler with
    | Some orh => orh job
    | None =>
        match Info handler with
        | Some irh => irh job
        | None => (false, Some (errors_New ErrNoOptionsHandler id))
        end
    end
  else (false, Some (errors_New ErrMethodNotSupported (Method job))).

(** The additional interfaces, by name, and the type assertion to each. *)
Inductive Capability : Type :=
  | GetResourceHandler
  | ReadResourceHandler
  | HeadResourceHandler
  | PutResourceHandler
  | UpdateResourceHandler
  | PostResourceHandler
  | CreateResourceHandler
  | PatchResourceHandler
  | ModifyResourceHandler
  | DeleteResourceHandler
  | OptionsResourceHandler
  | InfoResourceHandler.

Definition probe (handler : ResourceHandler) (cap : Capability) : option method :=
  match cap with
  | GetResourceHandler => Get handler
  | ReadResourceHandler => Read handler
  | HeadResourceHandler => Head handler
  | PutResourceHandler => Put handler
  | UpdateResourceHandler => Update handler
  | PostResourceHandler => Post handler
  | CreateResourceHandler => Create handler
  | PatchResourceHandler => Patch handler
  | ModifyResourceHandler => Modify handler
  | DeleteResourceHandler => Delete handler
  | OptionsResourceHandler => Options handler
  | InfoResourceHandler => Info handler
  end.

(** The verbs [handleJob] has a case for. *)
Definition handled_verbs : list string :=
  [http_MethodGet; http_MethodHead; http_MethodPut; http_MethodPost;
   http_MethodPatch; http_MethodDelete; http_MethodOptions].

(** Dispatch in two tiers, in the words of the specification: the primary
    capability is probed first, then the alias, and with neither the
    failure [code] carries the identity of the handler. *)
Definition two_tier (verb : string) (primary alias : Capability)
    (code : ErrCode) : Prop :=
  ∀ handler job, Method job = verb →
    handleJob handler job =
      match probe handler primary with
      | Some m => m job
      | None =>
          match probe handler alias with
          | Some m => m job
          | None => (false, Some (errors_New code (handler_id handler job)))
          end
      end.

(** Dispatch in one tier: the only capability probed is [primary]. *)
Definition one_tier (verb : string) (primary : Capability) (code : ErrCode)
  : Prop :=
  ∀ handler job, Method job = verb →
    handleJob handler job =
      match probe handler primary with
      | Some m => m job
      | None => (false, Some (errors_New code (handler_id handler job)))
      end.

(** The order of dispatch as the specification states it: every handled
    verb has a primary capability and an alias, probed in that order. *)
Definition two_tier_per_verb_stated : Prop :=
  ∀ verb, verb ∈ handled_verbs →
    ∃ primary alias code, primary ≠ alias ∧ two_tier verb primary alias code.

#[global] Instance Capability_eq_dec : EqDecision Capability.
Proof. solve_decision. Defined.

(** The method of the test handlers below: it accepts every job. *)
Definition accept : method := λ _, (true, None).

(** A handler that implements the interface [cap] and no other. *)
Definition implementing (cap : Capability) : ResourceHandler :=
  let m (c : Capability) : option method :=
    if decide (c = cap) then Some accept else None in
  mkHandler "h"
    (m GetResourceHandler) (m ReadResourceHandler) (m HeadResourceHandler)
    (m PutResourceHandler) (m UpdateResourceHandler) (m PostResourceHandler)
    (m CreateResourceHandler) (m PatchResourceHandler) (m ModifyResourceHandler)
    (m DeleteResourceHandler) (m OptionsResourceHandler) (m InfoResourceHandler).

(** A handler that implements every interface but [cap]. *)
Definition lacking (cap : Capability) : ResourceHandler :=
  let m (c : Capability) : option method :=
    if decide (c = cap) then None else Some accept in
  mkHandler "h"
    (m GetResourceHandler) (m ReadResourceHandler) (m HeadResourceHandler)
    (m PutResourceHandler) (m UpdateResourceHandler) (m PostResourceHandler)
    (m CreateResourceHandler) (m PatchResourceHandler) (m ModifyResourceHandler)
    (m DeleteResourceHandler) (m OptionsResourceHandler) (m InfoResourceHandler).

End rest.

(** ** The statements of the specification

    Definitions that follow the words of the specification, to be compared
    with the code above. *)

Module stated.

Import jwt.
Local Open Scope Z_scope.

(** *** Writes on a container *)

Inductive write : Type :=
  | WSet (key : string) (value : Value)
  | WDelete (key : string).

Definition do_write (c : Claims) (w : write) : Claims * Value :=
  match w with
  | WSet key value => Set_ c key value
  | WDelete key => Delete c key
  end.

(** The container after the writes [ws] and what each of them returned. *)
Fixpoint do_writes (c : Claims) (ws : list write) : Claims * list Value :=
  match ws with
  | [] => (c, [])
  | w :: ws =>
      let '(c, old) := do_write c w in
      let '(c, olds) := do_writes c ws in
      (c, old :: olds)
  end.

(** *** The read rule of the audience *)

Definition is_textual (v : Value) : bool :=
  match v with
  | VString _ => true
  | _ => false
  end.

(** The strings among the elements of a sequence. *)
Definition texts (l : list Value) : list string :=
  omap (λ v, match v with VString s => Some s | _ => None end) l.

(** The read rule as the specification words it: a lone string becomes a
    one-element sequence; a sequence is returned as strings when every
    element is textual and is not found otherwise; an absent key is not
    found. *)
Definition Audience_read_rule_stated (c : Claims) : Prop :=
  match Get c "aud" with
  | (VString s, true) => Audience c = ([s], true)
  | (VStrings l, true) => Audience c = (l, true)
  | (VSlice l, true) =>
      if forallb is_textual l then Audience c = (texts l, true)
      else snd (Audience c) = false
  | (_, true) => True
  | (_, false) => snd (Audience c) = false
  end.

(** The read rule of the code: as stated, but an untyped sequence without
    elements is not found. *)
Definition Audience_read_rule (c : Claims) : Prop :=
  match Get c "aud" with
  | (VString s, true) => Audience c = ([s], true)
  | (VStrings l, true) => Audience c = (l, true)
  | (VSlice [], true) => Audience c = ([], false)
  | (VSlice l, true) =>
      if forallb is_textual l then Audience c = (texts l, true)
      else snd (Audience c) = false
  | (_, true) => True
  | (_, false) => snd (Audience c) = false
  end.

(** *** Times *)

(** [t] without its sub-second part. *)
Definition truncate_to_seconds (t : Time) : Time :=
  mkTime (unix_sec t) 0 (loc t).

(** The exact value of a finite float, as a numerator and a positive
    denominator. *)
Definition float_exact (f : float) : option (Z * Z) :=
  match Prim2SF f with
  | S754_zero _ => Some (0, 1)
  | S754_finite s m e =>
      let n := if s then Z.neg m else Z.pos m in
      Some (if 0 <=? e then (n * 2 ^ e, 1) else (n, 2 ^ (- e)))
  | S754_infinity _ | S754_nan => None
  end.

(** The dynamic types each getter has a case for. *)
Definition GetInt_recognizes (v : Value) : bool :=
  match v with
  | VInt _ | VFloat64 _ | VString _ => true
  | _ => false
  end.

Definition GetTime_recognizes (v : Value) : bool :=
  match v with
  | VInt _ | VInt32 _ | VInt64 _ | VFloat64 _ | VString _ => true
  | _ => false
  end.

(** The integer of a value of one of the native integer types. *)
Definition native_integer (v : Value) : option Z :=
  match v with
  | VInt i | VInt32 i | VInt64 i => Some i
  | _ => None
  end.

(** The integer rule as the specification words it: a stored native
    integer, of whichever integer type, is returned as it is by [GetInt]
    and widened by [GetFloat64]. *)
Definition GetInt_native_integer_stated `{GoLibrary} (c : Claims)
  (key : string) : Prop :=
  ∀ v i, Get c key = (v, true) → native_integer v = Some i →
    GetInt c key = (i, true).

Definition GetFloat64_native_integer_stated `{GoLibrary} (c : Claims)
  (key : string) : Prop :=
  ∀ v i, Get c key = (v, true) → native_integer v = Some i →
    GetFloat64 c key = (float64_of_int i, true).

(** *** Decoding *)

(** The names of the members of the object in [b]; none when [b] is not
    the text of an object. *)
Definition input_keys `{GoLibrary} (b : list byte) : list string :=
  match json_syntax b with
  | Some (JObject members) => map fst members
  | _ => []
  end.

(** Decoding [b] into [c] keeps every entry of [c] whose key [b] does not
    have. *)
Definition decode_keeps_entries `{GoLibrary} (c : Claims) (b : list byte)
  : Prop :=
  ∀ key value,
    Get c key = (value, true) → key ∉ input_keys b →
    Get (fst (UnmarshalJSON c (Some b))) key = (value, true).

End stated.

(** ** Sample claims and texts *)

Module samples.

Import jwt.

(** The functions of Go are those of the reference library. *)
Definition lib : GoLibrary := reference.library.

Definition bytes (s : string) : list byte := list_byte_of_string s.

(** The payload [{"sub":"u1","exp":1700000000}]. *)
Definition payload : list byte :=
  bytes ("{" +:+ reference.quoted "sub" +:+ ":" +:+ reference.quoted "u1"
         +:+ "," +:+ reference.quoted "exp" +:+ ":1700000000}").

(** Claims of every kind the getters distinguish. *)
Definition mixed : Claims :=
  Some {[ "n" := VInt 4711; "f" := VFloat64 (-3.75); "s" := VString "-42";
          "bad" := VString "4x"; "b" := VBool true; "r" := VString "2.5";
          "i32" := VInt32 7; "i64" := VInt64 1700000000;
          "t" := VString "2023-11-14T22:13:20Z";
          "day" := VString "2023-11-14";
          "max" := VString "9223372036854775807" ]}.

(** An encoder that fails, for the cases where none is called. *)
Definition failing_encoder : Claims → list byte * option error :=
  λ _, ([], Some (LibraryError "json: unsupported type")).

End samples.

(** ** The mutators of the package as one type *)

Module api.

Import jwt.

(** What a mutator returns: the old value as the method types it. *)
Inductive result : Type :=
  | RValue (v : Value)
  | RTime (t : Time)
  | RStrings (l : list string)
  | RString (s : string).

(** A call of one of the methods that write to a container. *)
Inductive mutation : Type :=
  | MSet (key : string) (value : Value)
  | MSetTime (key : string) (t : Time)
  | MDelete (key : string)
  | MSetAudience (auds : list string)
  | MDeleteAudience
  | MSetExpiration (t : Time)
  | MDeleteExpiration
  | MSetIssuedAt (t : Time)
  | MDeleteIssuedAt
  | MSetIssuer (issuer : string)
  | MDeleteIssuer
  | MSetIdentifier (id : string)
  | MDeleteIdentifier
  | MSetNotBefore (t : Time)
  | MDeleteNotBefore
  | MSetSubject (subject : string)
  | MDeleteSubject.

(** The key a mutator writes to. *)
Definition touched (mu : mutation) : string :=
  match mu with
  | MSet key _ | MSetTime key _ | MDelete key => key
  | MSetAudience _ | MDeleteAudience => "aud"
  | MSetExpiration _ | MDeleteExpiration => "exp"
  | MSetIssuedAt _ | MDeleteIssuedAt => "iat"
  | MSetIssuer _ | MDeleteIssuer => "iss"
  | MSetIdentifier _ | MDeleteIdentifier => "jti"
  | MSetNotBefore _ | MDeleteNotBefore => "nbf"
  | MSetSubject _ | MDeleteSubject => "sub"
  end.

(** The zero value of the result type of a mutator. *)
Definition zero_result (mu : mutation) : result :=
  match mu with
  | MSet _ _ | MDelete _ => RValue VNil
  | MSetTime _ _ | MSetExpiration _ | MDeleteExpiration | MSetIssuedAt _
  | MDeleteIssuedAt | MSetNotBefore _ | MDeleteNotBefore => RTime zero_Time
  | MSetAudience _ | MDeleteAudience => RStrings []
  | MSetIssuer _ | MDeleteIssuer | MSetIdentifier _ | MDeleteIdentifier
  | MSetSubject _ | MDeleteSubject => RString EmptyString
  end.

Section calls.

Context `{GoLibrary} `{FmtLibrary}.

(** The call [mu] on [c]: the container afterwards and the result. *)
Definition mutate (c : Claims) (mu : mutation) : Claims * result :=
  match mu with
  | MSet key value => let '(c, old) := Set_ c key value in (c, RValue old)
  | MSetTime key t => let '(c, old) := SetTime c key t in (c, RTime old)
  | MDelete key => let '(c, old) := Delete c key in (c, RValue old)
  | MSetAudience auds => let '(c, old) := SetAudience c auds in (c, RStrings old)
  | MDeleteAudience => let '(c, old) := DeleteAudience c in (c, RStrings old)
  | MSetExpiration t => let '(c, old) := SetExpiration c t in (c, RTime old)
  | MDeleteExpiration => let '(c, old) := DeleteExpiration c in (c, RTime old)
  | MSetIssuedAt t => let '(c, old) := SetIssuedAt c t in (c, RTime old)
  | MDeleteIssuedAt => let '(c, old) := DeleteIssuedAt c in (c, RTime old)
  | MSetIssuer issuer => let '(c, old) := SetIssuer c issuer in (c, RString old)
  | MDeleteIssuer => let '(c, old) := DeleteIssuer c in (c, RString old)
  | MSetIdentifier id => let '(c, old) := SetIdentifier c id in (c, RString old)
  | MDeleteIdentifier => let '(c, old) := DeleteIdentifier c in (c, RString old)
  | MSetNotBefore t => let '(c, old) := SetNotBefore c t in (c, RTime old)
  | MDeleteNotBefore => let '(c, old) := DeleteNotBefore c in (c, RTime old)
  | MSetSubject subject => let '(c, old) := SetSubject c subject in (c, RString old)
  | MDeleteSubject => let '(c, old) := DeleteSubject c in (c, RString old)
  end.

(** The calls [mus] one after the other. *)
Fixpoint mutate_all (c : Claims) (mus : list mutation) : Claims * list result :=
  match mus with
  | [] => (c, [])
  | mu :: mus =>
      let '(c, r) := mutate c mu in
      let '(c, rs) := mutate_all c mus in
      (c, r :: rs)
  end.

End calls.

(** The strings of the elements of a JSON array that are strings. *)
Definition json_strings (elems : list json) : list string :=
  omap (λ j, match j with JString s => Some s | _ => None end) elems.

Definition is_JString (j : json) : bool :=
  match j with
  | JString _ => true
  | _ => false
  end.

(** [%v] as the reference library renders it. *)
Definition fmt : FmtLibrary := reference.Sprint.

(** Claims with the seven reserved names and two others. *)
Definition token_map : gmap string Value :=
  {[ "iss" := VString "tideland"; "sub" := VString "u1";
     "jti" := VInt 4711; "aud" := VSlice [VString "a"; VString "b"];
     "exp" := VFloat64 1700000000; "iat" := VInt64 1600000000;
     "nbf" := VString "2020-09-13T12:26:40Z";
     "admin" := VBool true; "nothing" := VNil ]}.

Definition token : Claims := Some token_map.

(** An encoder that answers every container with the same bytes. *)
Definition fixed_encoder : Claims → list byte * option error :=
  λ _, (samples.payload, None).

End api.

(** ** The capabilities of a verb *)

Module verbs.

Import rest.

(** The interfaces [handleJob] asserts for a request method, in the order
    of its case; none for a method without a case. *)
Definition capabilities_of (verb : string) : list Capability :=
  if String.eqb verb http_MethodGet then
    [GetResourceHandler; ReadResourceHandler]
  else if String.eqb verb http_MethodHead then [HeadResourceHandler]
  else if String.eqb verb http_MethodPut then
    [PutResourceHandler; UpdateResourceHandler]
  else if String.eqb verb http_MethodPost then
    [PostResourceHandler; CreateResourceHandler]
  else if String.eqb verb http_MethodPatch then
    [PatchResourceHandler; ModifyResourceHandler]
  else if String.eqb verb http_MethodDelete then [DeleteResourceHandler]
  else if String.eqb verb http_MethodOptions then
    [OptionsResourceHandler; InfoResourceHandler]
  else [].

(** A handler with every interface, each method answering with its own
    message, and the same handler without its GET methods. *)
Definition answering (msg : string) : method :=
  λ _, (false, Some (HandlerError msg)).

Definition full : ResourceHandler :=
  mkHandler "full"
    (Some (answering "Get")) (Some (answering "Read")) (Some (answering "Head"))
    (Some (answering "Put")) (Some (answering "Update")) (Some (answering "Post"))
    (Some (answering "Create")) (Some (answering "Patch"))
    (Some (answering "Modify")) (Some (answering "Delete"))
    (Some (answering "Options")) (Some (answering "Info")).

Definition full_but_get : ResourceHandler :=
  mkHandler "full"
    None None (Some (answering "Head"))
    (Some (answering "Put")) (Some (answering "Update")) (Some (answering "Post"))
    (Some (answering "Create")) (Some (answering "Patch"))
    (Some (answering "Modify")) (Some (answering "Delete"))
    (Some (answering "Options")) (Some (answering "Info")).

End verbs.

(** ** Properties of the claims container *)

Section container.

Import jwt stated.

Lemma Get_nil key : Get None key = (VNil, false).
Proof. reflexivity. Qed.

Lemma Get_lookup (m : gmap string Value) key :
  Get (Some m) key =
    match m !! key with
    | Some v => (v, true)
    | None => (VNil, false)
    end.
Proof. reflexivity. Qed.

(** A key is found exactly when the map has it, and never with another
    value. *)
Lemma Get_found (m : gmap string Value) key v :
  Get (Some m) key = (v, true) ↔ m !! key = Some v.
Proof.
  rewrite Get_lookup. destruct (m !! key) as [w|]; split; intros E;
    inversion E; reflexivity.
Qed.

Lemma Get_found_initialized (c : Claims) key v :
  Get c key = (v, true) → ∃ m, c = Some m ∧ m !! key = Some v.
Proof.
  destruct c as [m|]; [|discriminate].
  intros E. exists m. split; [reflexivity|by apply Get_found].
Qed.

Lemma Contains_Get c key : Contains c key = snd (Get c key).
Proof. unfold Contains. by destruct (Get c key). Qed.

Lemma Set_initialized (m : gmap string Value) key v :
  Set_ (Some m) key v = (Some (<[key:=v]> m), fst (Get (Some m) key)).
Proof. unfold Set_. by destruct (Get (Some m) key). Qed.

Lemma Delete_initialized (m : gmap string Value) key :
  Delete (Some m) key = (Some (delete key m), fst (Get (Some m) key)).
Proof. unfold Delete. by destruct (Get (Some m) key). Qed.

Lemma do_write_nil w : do_write None w = (None, VNil).
Proof. by destruct w. Qed.

Lemma do_writes_nil ws :
  do_writes None ws = (None, replicate (length ws) VNil).
Proof.
  induction ws as [|w ws IH]; [reflexivity|].
  simpl. rewrite do_write_nil, IH. reflexivity.
Qed.

(** C1: on an uninitialized container [Set] and [Delete] return nil and
    leave the container uninitialized (no map is allocated), so that
    after any sequence of such writes [Get] and [Contains] still report
    every key absent. *)
Theorem C1_writes_on_uninitialized_are_noops :
  ∀ (key : string) (value : Value),
    Set_ None key value = (None, VNil)
    ∧ Delete None key = (None, VNil)
    ∧ ∀ (ws : list write) (key' : string),
        do_writes None ws = (None, replicate (length ws) VNil)
        ∧ Get (fst (do_writes None ws)) key' = (VNil, false)
        ∧ Contains (fst (do_writes None ws)) key' = false.
Proof.
  intros key value. split; [reflexivity|]. split; [reflexivity|].
  intros ws key'. rewrite do_writes_nil. by repeat split.
Qed.

End container.

(** ** Properties of the audience claim *)

Section audience.

Import jwt stated.

Lemma texts_cons_string s l : texts (VString s :: l) = s :: texts l.
Proof. reflexivity. Qed.

Lemma length_texts l : forallb is_textual l = true → length (texts l) = length l.
Proof.
  induction l as [|v l IH]; [reflexivity|].
  destruct v; try discriminate. intros Hl.
  rewrite texts_cons_string. simpl. f_equal. apply IH, Hl.
Qed.

(** The loop writes the strings of [auds] into [strs] from index [i] on
    and leaves the rest of [strs] as it is; it stops at the first
    element that is not a string. *)
Lemma makeStrings_loop_spec auds : ∀ i strs,
  i + length auds ≤ length strs →
  makeStrings_loop i auds strs =
    if forallb is_textual auds
    then Some (take i strs ++ texts auds ++ drop (i + length auds) strs)
    else None.
Proof.
  induction auds as [|aud auds IH]; intros i strs Hlen.
  - simpl. rewrite Nat.add_0_r, take_drop. reflexivity.
  - simpl in Hlen. destruct aud; try reflexivity.
    cbn [makeStrings_loop forallb is_textual andb length].
    rewrite IH by (rewrite length_insert; lia).
    destruct (forallb is_textual auds); [|reflexivity].
    f_equal. rewrite texts_cons_string.
    rewrite (take_S_r _ _ s) by (apply list_lookup_insert_eq; lia).
    rewrite take_insert_ge by lia.
    rewrite drop_insert_lt by lia.
    rewrite <- app_assoc. simpl.
    by replace (S (i + length auds)) with (i + S (length auds)) by lia.
Qed.

(** [makeStrings] on the elements of a slice. *)
Lemma makeStrings_spec auds :
  makeStrings auds =
    match auds with
    | [] => ([], false)
    | _ => if forallb is_textual auds then (texts auds, true) else ([], false)
    end.
Proof.
  destruct auds as [|aud auds]; [reflexivity|].
  unfold makeStrings.
  replace (length (aud :: auds) =? 0) with false by reflexivity.
  rewrite makeStrings_loop_spec by (rewrite length_replicate; lia).
  destruct (forallb is_textual (aud :: auds)) eqn:Hall; [|reflexivity].
  rewrite take_0. simpl app.
  rewrite drop_ge by (rewrite length_replicate; simpl; lia).
  by rewrite app_nil_r.
Qed.

(** A value that is not a string, passed alone to [makeStrings], is not
    found: the last case of the type switch never succeeds. *)
Lemma makeStrings_single v : is_textual v = false → makeStrings [v] = ([], false).
Proof. rewrite makeStrings_spec. simpl. by intros ->. Qed.

(** C2 (amended): [Audience] returns a lone string as a one-element
    sequence, a sequence of strings as it is, and an untyped sequence
    with at least one element as its strings when every element is a
    string; it reports not-found for an untyped sequence with an element
    that is not a string, for an untyped sequence without elements and
    for an absent key. *)
Theorem C2_Audience_read_rule : ∀ c : Claims, Audience_read_rule c.
Proof.
  intros c. unfold Audience_read_rule, Audience.
  destruct (Get c "aud") as [v ok].
  destruct v as [| | | | | |s|l|l| |], ok; try exact I; try reflexivity.
  - cbn -[makeStrings texts forallb]. rewrite makeStrings_spec.
    destruct l as [|v l]; [reflexivity|].
    by destruct (forallb is_textual (v :: l)).
  - by destruct l.
Qed.

(** C2 (as stated) fails: for ["aud"] holding the untyped sequence
    without elements every element is textual, and yet [Audience]
    reports not-found. *)
Lemma C2_empty_sequence_counterexample :
  let c : Claims := Some {[ "aud" := VSlice [] ]} in
  Get c "aud" = (VSlice [], true)
  ∧ forallb is_textual [] = true
  ∧ Audience c = ([], false)
  ∧ ¬ Audience_read_rule_stated c.
Proof.
  repeat split. intros H. vm_compute in H. discriminate H.
Qed.

(** C10: when ["aud"] is present and holds an untyped sequence without
    elements, [Audience] reports not-found. *)
Theorem C10_empty_untyped_audience_not_found :
  ∀ c : Claims, Get c "aud" = (VSlice [], true) → Audience c = ([], false).
Proof. intros c E. unfold Audience. rewrite E. reflexivity. Qed.

Lemma C10_witness :
  Audience (Some {[ "aud" := VSlice []; "iss" := VString "tideland" ]})
    = ([], false).
Proof.
  apply C10_empty_untyped_audience_not_found. reflexivity.
Defined.

(** C3: on an initialized container [SetAudience] without arguments
    deletes ["aud"], with one argument stores the bare string, and with
    two or more stores the sequence of strings; in each case it returns
    what [Audience] read before. *)
Theorem C3_SetAudience_write_rule :
  ∀ m : gmap string Value,
    (fst (SetAudience (Some m) []) = Some (delete "aud" m)
     ∧ Get (fst (SetAudience (Some m) [])) "aud" = (VNil, false)
     ∧ Contains (fst (SetAudience (Some m) [])) "aud" = false)
    ∧ (∀ a, fst (SetAudience (Some m) [a]) = Some (<["aud" := VString a]> m)
            ∧ Get (fst (SetAudience (Some m) [a])) "aud" = (VString a, true))
    ∧ (∀ a b rest,
         fst (SetAudience (Some m) (a :: b :: rest))
           = Some (<["aud" := VStrings (a :: b :: rest)]> m)
         ∧ Get (fst (SetAudience (Some m) (a :: b :: rest))) "aud"
           = (VStrings (a :: b :: rest), true))
    ∧ (∀ auds, snd (SetAudience (Some m) auds) = fst (Audience (Some m))).
Proof.
  intros m. unfold SetAudience.
  destruct (Audience (Some m)) as [old ok] eqn:Hold.
  rewrite Delete_initialized.
  repeat split; intros; rewrite ?Set_initialized, ?Contains_Get;
    cbn [fst snd]; rewrite ?Get_lookup, ?lookup_delete_eq, ?lookup_insert_eq;
    try reflexivity.
  by destruct auds as [|a [|b rest]].
Qed.

End audience.

(** ** Properties of the coercive getters *)

Section getters.

Import jwt stated.
Context `{L : GoLibrary}.

(** [float_trunc] is the quotient, rounded toward zero, of the exact
    value of the float. *)
Lemma float_trunc_exact f :
  float_trunc f = (λ nd, Z.quot (fst nd) (snd nd)) <$> float_exact f.
Proof.
  unfold float_trunc, float_exact.
  destruct (Prim2SF f) as [s| | |s m e]; try reflexivity.
  simpl. f_equal.
  destruct (Z.leb_spec 0 e) as [He|He]; cbn [fst snd].
  - rewrite Z.shiftl_mul_pow2 by exact He. rewrite Z.quot_1_r.
    destruct s; [|reflexivity].
    by rewrite <- Z.mul_opp_l.
  - assert (0 < 2 ^ (- e))%Z as Hpow by (apply Z.pow_pos_nonneg; lia).
    rewrite Z.shiftl_div_pow2 by lia.
    destruct s.
    + change (Z.neg m) with (- Z.pos m)%Z.
      rewrite Z.quot_opp_l by lia.
      by rewrite Z.quot_div_nonneg by lia.
    + by rewrite Z.quot_div_nonneg by lia.
Qed.

(** For a float whose integer part fits, [int64(f)] is that part. *)
Lemma int64_of_float64_trunc f n d :
  float_exact f = Some (n, d) → in_int64 (Z.quot n d) = true →
  int64_of_float64 f = Z.quot n d.
Proof.
  intros Hx Hr. unfold int64_of_float64.
  rewrite float_trunc_exact, Hx. simpl. by rewrite Hr.
Qed.

(** Whenever [GetTime] does not find a time it returns the zero time. *)
Lemma GetTime_not_found c key :
  snd (GetTime c key) = false → fst (GetTime c key) = zero_Time.
Proof.
  unfold GetTime. destruct (Get c key) as [v [|]]; [|reflexivity].
  destruct v; try reflexivity; try discriminate.
  simpl. by destruct (time_Parse_RFC3339 s).
Qed.

(** *** strconv.ParseInt reads decimal numerals *)

Lemma pretty_N_char_digit (d : N) :
  (d < 10)%N →
  is_digit (pretty_N_char d) = true ∧ digit_value (pretty_N_char d) = Z.of_N d.
Proof.
  intros Hd.
  assert (d = 0 ∨ d = 1 ∨ d = 2 ∨ d = 3 ∨ d = 4 ∨ d = 5 ∨ d = 6 ∨ d = 7
          ∨ d = 8 ∨ d = 9)%N as Hcases by lia.
  destruct_or!; subst; done.
Qed.

Lemma maxUint64_value :
  maxUint64 = 18446744073709551615%Z
  ∧ (maxUint64 / 10 + 1 = 1844674407370955162)%Z.
Proof. by split. Qed.

(** The digit loop, run over the numeral of a [uint64] [x] in front of
    [s], arrives at [s] with [x]. *)
Lemma parse_digits_pretty_N_go (x : N) : ∀ s,
  (Z.of_N x <= maxUint64)%Z →
  parse_digits 0 (pretty_N_go x s) = parse_digits (Z.of_N x) s.
Proof.
  destruct maxUint64_value as [Hmax Hcut].
  induction (N.lt_wf_0 x) as [x _ IH]; intros s Hx.
  destruct (decide (x = 0)%N) as [->|Hpos]; [by rewrite pretty_N_go_0|].
  pose proof (N.div_mod x 10) as Hdiv.
  pose proof (N.mod_lt x 10) as Hmod.
  assert (x `mod` 10 < 10)%N as Hlt by (apply Hmod; lia).
  assert (x `div` 10 < x)%N as Hless by (apply N.div_lt; lia).
  pose proof (N2Z.is_nonneg (x `mod` 10)) as Hrem.
  pose proof (N2Z.is_nonneg (x `div` 10)) as Hquo.
  assert (Z.of_N (x `div` 10) < 1844674407370955162)%Z as Hquot
    by (rewrite Hmax in Hx; lia).
  rewrite pretty_N_go_step by lia.
  rewrite IH by (try exact Hless; rewrite Hmax; lia).
  destruct (pretty_N_char_digit (x `mod` 10)%N Hlt) as [Hdigit Hvalue].
  cbn [parse_digits]. rewrite Hdigit, Hvalue, Hcut.
  destruct (Z.leb_spec 1844674407370955162 (Z.of_N (x `div` 10))); [lia|].
  replace (Z.of_N (x `div` 10) * 10 + Z.of_N (x `mod` 10))%Z with (Z.of_N x)
    by lia.
  destruct (Z.ltb_spec maxUint64 (Z.of_N x)); [lia|reflexivity].
Qed.

Lemma pretty_N_go_head (x : N) : ∀ s,
  (0 < x)%N → ∃ c r, pretty_N_go x s = String c r ∧ is_digit c = true.
Proof.
  induction (N.lt_wf_0 x) as [x _ IH]; intros s Hx.
  rewrite pretty_N_go_step by done.
  destruct (decide (x `div` 10 = 0)%N) as [->|Hq].
  - rewrite pretty_N_go_0. eexists _, _. split; [reflexivity|].
    by apply pretty_N_char_digit, N.mod_lt.
  - apply IH; [apply N.div_lt; lia|by apply N.neq_0_lt_0].
Qed.

Lemma strconv_ParseUint_pretty (x : N) :
  (Z.of_N x <= maxUint64)%Z → strconv_ParseUint (pretty x) = (Z.of_N x, None).
Proof.
  intros Hx. unfold strconv_ParseUint, pretty, pretty_N.
  destruct (decide (x = 0)%N) as [->|Hpos]; [reflexivity|].
  destruct (pretty_N_go_head x "") as (c & r & Hs & _); [lia|].
  rewrite Hs. rewrite <- Hs. by rewrite parse_digits_pretty_N_go.
Qed.

Lemma digit_not_sign c :
  is_digit c = true → Ascii.eqb c "+" = false ∧ Ascii.eqb c "-" = false.
Proof.
  intros Hc. split; apply Ascii.eqb_neq; intros ->; discriminate Hc.
Qed.

(** [strconv.ParseInt] reads the decimal numeral of every [int64] back. *)
Lemma strconv_ParseInt_pretty (z : Z) :
  in_int64 z = true → strconv_ParseInt (pretty z) = (z, None).
Proof.
  unfold in_int64. intros [Hlo Hhi]%andb_prop.
  apply Z.leb_le in Hlo. apply Z.ltb_lt in Hhi.
  destruct z as [|p|p]; [reflexivity|..].
  - change (pretty (Z.pos p)) with (pretty (N.pos p)).
    pose proof (strconv_ParseUint_pretty (N.pos p)) as Hun.
    unfold pretty at 1, pretty_N at 1 in Hun. unfold pretty, pretty_N.
    destruct (decide (N.pos p = 0%N)) as [|_]; [done|].
    destruct (pretty_N_go_head (N.pos p) "") as (c & r & Hs & Hc); [lia|].
    rewrite Hs in *. unfold strconv_ParseInt.
    destruct (digit_not_sign c Hc) as [-> ->].
    rewrite Hun by (unfold maxUint64; simpl Z.of_N; lia).
    cbn [negb andb]. simpl Z.of_N.
    destruct (Z.leb_spec (2 ^ 63) (Z.pos p)); [lia|reflexivity].
  - change (pretty (Z.neg p)) with (String "-" (pretty (N.pos p))).
    unfold strconv_ParseInt.
    change (Ascii.eqb "-" "+") with false. change (Ascii.eqb "-" "-") with true.
    cbn iota.
    rewrite strconv_ParseUint_pretty by (unfold maxUint64; simpl Z.of_N; lia).
    cbn [negb andb]. simpl Z.of_N.
    destruct (Z.ltb_spec (2 ^ 63) (Z.pos p)); [lia|reflexivity].
Qed.

(** With a byte that is not a decimal digit the digit loop ends in an
    error: a syntax error at that byte, or a range error at a digit
    before it. *)
Lemma parse_digits_non_digit (s1 s2 : string) (c : ascii) : ∀ n,
  is_digit c = false →
  parse_digits n (s1 +:+ String c s2) = (0%Z, Some ErrSyntax)
  ∨ parse_digits n (s1 +:+ String c s2) = (maxUint64, Some ErrRange).
Proof.
  induction s1 as [|c1 s1 IH]; intros n Hc; simpl.
  - left. by rewrite Hc.
  - destruct (is_digit c1); [|by left].
    destruct (_ <=? n)%Z; [by right|].
    destruct (maxUint64 <? _)%Z; [by right|]. by apply IH.
Qed.

Lemma strconv_ParseUint_non_digit (s1 s2 : string) (c : ascii) :
  is_digit c = false →
  strconv_ParseUint (s1 +:+ String c s2) = (0%Z, Some ErrSyntax)
  ∨ strconv_ParseUint (s1 +:+ String c s2) = (maxUint64, Some ErrRange).
Proof.
  intros Hc. unfold strconv_ParseUint.
  destruct (s1 +:+ String c s2) eqn:E; [by destruct s1|].
  rewrite <- E. by apply parse_digits_non_digit.
Qed.

(** [strconv.ParseInt] rejects a string with a byte after the first that
    is not a decimal digit. *)
Lemma strconv_ParseInt_non_digit (c0 : ascii) (s1 s2 : string) (c : ascii) :
  is_digit c = false →
  ∃ v e, strconv_ParseInt (String c0 (s1 +:+ String c s2)) = (v, Some e).
Proof.
  intros Hc. unfold strconv_ParseInt.
  assert (∀ (neg : bool) s,
            strconv_ParseUint s = (0%Z, Some ErrSyntax)
            ∨ strconv_ParseUint s = (maxUint64, Some ErrRange) →
            ∃ v e,
              (let '(un, err) := strconv_ParseUint s in
               match err with
               | Some ErrSyntax => (0%Z, err)
               | _ =>
                   let cutoff := (2 ^ 63)%Z in
                   if negb neg && (cutoff <=? un)%Z
                   then ((cutoff - 1)%Z, Some ErrRange)
                   else if neg && (cutoff <? un)%Z
                        then ((- cutoff)%Z, Some ErrRange)
                        else (if neg then (- un)%Z else un, None)
               end) = (v, Some e)) as Hfail.
  { intros neg s [->| ->]; [by eexists _, _|]. destruct neg; by eexists _, _. }
  destruct (Ascii.eqb c0 "+"); [|destruct (Ascii.eqb c0 "-")].
  - by apply Hfail, strconv_ParseUint_non_digit.
  - by apply Hfail, strconv_ParseUint_non_digit.
  - apply Hfail.
    change (String c0 (s1 +:+ String c s2))
      with (String c0 s1 +:+ String c s2).
    by apply strconv_ParseUint_non_digit.
Qed.

(** C8 (amended): [GetInt] returns a stored [int] as it is, the integer
    part (rounded toward zero) of a stored [float64], and what
    [strconv.ParseInt] in base 10 reads from a stored string: the
    decimal numeral of an [int64] gives that integer, and a string with a
    byte that is not a digit after its first byte is a parse failure.  It
    reports not-found when the string does not parse, for every other
    stored type (a boolean, say) and for an absent key.  [GetFloat64] does
    the same with an [int] converted to [float64], a [float64] as it is
    and what [strconv.ParseFloat] reads from a string.  Of the native
    integer types [int] is the only one either getter has a case for: a
    stored [int32] or [int64] is not found by both. *)
Theorem C8_GetInt_GetFloat64_coercion :
  ∀ (c : Claims) (key : string),
    ((∀ i, Get c key = (VInt i, true) → GetInt c key = (i, true))
     ∧ (∀ f, Get c key = (VFloat64 f, true) →
          GetInt c key = (int64_of_float64 f, true)
          ∧ ∀ n d, float_exact f = Some (n, d) →
              in_int64 (Z.quot n d) = true →
              GetInt c key = (Z.quot n d, true))
     ∧ (∀ s, Get c key = (VString s, true) →
          (∀ i, strconv_ParseInt s = (i, None) → GetInt c key = (i, true))
          ∧ (∀ i e, strconv_ParseInt s = (i, Some e) →
               GetInt c key = (0%Z, false))
          ∧ (∀ z, in_int64 z = true → s = pretty z → GetInt c key = (z, true))
          ∧ (∀ c0 s1 d s2, is_digit d = false →
               s = String c0 (s1 +:+ String d s2) →
               GetInt c key = (0%Z, false)))
     ∧ (∀ v, Get c key = (v, true) → GetInt_recognizes v = false →
          GetInt c key = (0%Z, false))
     ∧ (snd (Get c key) = false → GetInt c key = (0%Z, false)))
    ∧ ((∀ i, Get c key = (VInt i, true) →
          GetFloat64 c key = (float64_of_int i, true))
       ∧ (∀ f, Get c key = (VFloat64 f, true) → GetFloat64 c key = (f, true))
       ∧ (∀ s, Get c key = (VString s, true) →
            (∀ f, strconv_ParseFloat s = Some f → GetFloat64 c key = (f, true))
            ∧ (strconv_ParseFloat s = None →
                 GetFloat64 c key = (0%float, false)))
       ∧ (∀ v, Get c key = (v, true) → GetInt_recognizes v = false →
            GetFloat64 c key = (0%float, false))
       ∧ (snd (Get c key) = false → GetFloat64 c key = (0%float, false)))
    ∧ (∀ i, Get c key = (VInt32 i, true) ∨ Get c key = (VInt64 i, true) →
         GetInt c key = (0%Z, false)
         ∧ GetFloat64 c key = (0%float, false)).
Proof.
  intros c key. unfold GetInt, GetFloat64.
  destruct (Get c key) as [v ok]. cbn [snd].
  split; [|split; [|by intros i [[= -> ->]|[= -> ->]]]];
    (split; [|split; [|split; [|split]]]).
  - by intros i [= -> ->].
  - intros f [= -> ->]. split; [reflexivity|].
    intros n d Hx Hr. cbn [negb]. by rewrite (int64_of_float64_trunc _ n d).
  - intros s [= -> ->].
    split; [by intros i ->|split; [by intros i e ->|split]].
    + intros z Hz ->. cbn [negb]. by rewrite strconv_ParseInt_pretty.
    + intros c0 s1 d s2 Hd ->. cbn [negb].
      by destruct (strconv_ParseInt_non_digit c0 s1 s2 d Hd) as (v & e & ->).
  - intros w [= -> ->] Hw. by destruct w.
  - by intros ->.
  - by intros i [= -> ->].
  - by intros f [= -> ->].
  - intros s [= -> ->]. split; [by intros f ->|by intros ->].
  - intros w [= -> ->] Hw. by destruct w.
  - by intros ->.
Qed.

(** C7: [GetTime] reads a stored [int], [int32] or [int64] as that many
    seconds after the Unix epoch, a stored [float64] as its conversion
    to [int64], and a stored string as [time.Parse] with the RFC 3339
    layout reads it; it reports not-found, with the zero time, when the
    string does not parse, for every other stored type and for an absent
    key. *)
Theorem C7_GetTime_coercion :
  ∀ (c : Claims) (key : string),
    (∀ i, Get c key = (VInt i, true) ∨ Get c key = (VInt32 i, true)
          ∨ Get c key = (VInt64 i, true) →
       GetTime c key = (mkTime i 0 Local, true))
    ∧ (∀ f, Get c key = (VFloat64 f, true) →
         GetTime c key = (mkTime (int64_of_float64 f) 0 Local, true)
         ∧ ∀ n d, float_exact f = Some (n, d) →
             in_int64 (Z.quot n d) = true →
             GetTime c key = (mkTime (Z.quot n d) 0 Local, true))
    ∧ (∀ s, Get c key = (VString s, true) →
         (∀ t, time_Parse_RFC3339 s = Some t → GetTime c key = (t, true))
         ∧ (time_Parse_RFC3339 s = None →
              GetTime c key = (zero_Time, false)))
    ∧ (∀ v, Get c key = (v, true) → GetTime_recognizes v = false →
         GetTime c key = (zero_Time, false))
    ∧ (snd (Get c key) = false → GetTime c key = (zero_Time, false)).
Proof.
  intros c key. unfold GetTime.
  destruct (Get c key) as [v ok]. cbn [snd].
  split; [|split; [|split; [|split]]].
  - by intros i [[= -> ->]|[[= -> ->]|[= -> ->]]].
  - intros f [= -> ->]. split; [reflexivity|].
    intros n d Hx Hr. cbn [negb]. by rewrite (int64_of_float64_trunc _ n d).
  - intros s [= -> ->]. split; [by intros t ->|by intros ->].
  - intros w [= -> ->] Hw. by destruct w.
  - by intros ->.
Qed.

(** C4: on an initialized container [SetTime] stores the seconds of [t]
    since the Unix epoch as an [int64] and returns what [GetTime] read
    before, which is the zero time when [GetTime] found nothing; reading
    the key back gives the instant [t] without its sub-second part.  In
    particular [Expiration] after [SetExpiration(t)] finds a time equal
    to [t] truncated to whole seconds. *)
Theorem C4_SetTime_stores_epoch_seconds :
  ∀ (m : gmap string Value) (key : string) (t : Time),
    let c : Claims := Some m in
    (fst (SetTime c key t) = Some (<[key := VInt64 (Time_Unix t)]> m)
     ∧ Get (fst (SetTime c key t)) key = (VInt64 (Time_Unix t), true)
     ∧ GetTime (fst (SetTime c key t)) key = (mkTime (unix_sec t) 0 Local, true)
     ∧ snd (SetTime c key t) = fst (GetTime c key)
     ∧ (snd (GetTime c key) = false → snd (SetTime c key t) = zero_Time))
    ∧ (Expiration (fst (SetExpiration c t)) = (mkTime (unix_sec t) 0 Local, true)
       ∧ Time_Equal (fst (Expiration (fst (SetExpiration c t))))
           (truncate_to_seconds t) = true
       ∧ nsec (fst (Expiration (fst (SetExpiration c t)))) = 0%Z).
Proof.
  intros m key t c.
  assert (∀ k, fst (SetTime c k t) = Some (<[k := VInt64 (Time_Unix t)]> m)
               ∧ snd (SetTime c k t) = fst (GetTime c k)) as Hset.
  { intros k. unfold SetTime. destruct (GetTime c k) as [old ok].
    unfold c. rewrite Set_initialized. by split. }
  assert (∀ k, GetTime (fst (SetTime c k t)) k
               = (mkTime (unix_sec t) 0 Local, true)) as Hget.
  { intros k. rewrite (proj1 (Hset k)). unfold GetTime.
    rewrite Get_lookup, lookup_insert_eq. reflexivity. }
  repeat split.
  - apply Hset.
  - rewrite (proj1 (Hset key)), Get_lookup. by rewrite lookup_insert_eq.
  - apply Hget.
  - apply Hset.
  - intros Hnone. rewrite (proj2 (Hset key)). by apply GetTime_not_found.
  - apply Hget.
  - unfold Expiration, SetExpiration. rewrite Hget.
    unfold Time_Equal, truncate_to_seconds. cbn [fst unix_sec nsec].
    by rewrite !Z.eqb_refl.
  - unfold Expiration, SetExpiration. by rewrite Hget.
Qed.

End getters.

(** ** Properties of the JSON codec *)

Section codec.

Import jwt stated.
Context `{L : GoLibrary}.

Lemma Len_zero (c : Claims) : Len c = 0%Z ↔ c = None ∨ c = Some ∅.
Proof.
  destruct c as [m|]; simpl.
  - split.
    + intros Hsz. right. f_equal. apply map_size_empty_iff. lia.
    + intros [[=]|[= ->]]. by rewrite map_size_empty.
  - split; [by left|reflexivity].
Qed.

(** C5: a container that is uninitialized or has no entries encodes as
    the two bytes of the empty object, without an error and whatever
    the encoder of the library would do. *)
Theorem C5_empty_claims_encode_as_empty_object :
  ∀ (json_Marshal : Claims → list byte * option error) (c : Claims),
    c = None ∨ (∃ m, c = Some m ∧ size m = 0) →
    MarshalJSON json_Marshal c = (Some [x7b; x7d], None).
Proof.
  intros json_Marshal c Hc. unfold MarshalJSON.
  replace (Len c) with 0%Z; [reflexivity|].
  destruct Hc as [->|(m & -> & Hsz)]; simpl; [reflexivity|].
  by rewrite Hsz.
Qed.

(** Storing the members of an object does not touch the other keys. *)
Lemma json_store_lookup_other members : ∀ (m : gmap string Value) key,
  key ∉ map fst members → json_store members m !! key = m !! key.
Proof.
  unfold json_store.
  induction members as [|[k j] members IH]; intros m key Hkey; [reflexivity|].
  simpl in *. apply not_elem_of_cons in Hkey as [Hne Hkey].
  rewrite IH by exact Hkey. by apply lookup_insert_ne.
Qed.

(** Every member of the object is in the map afterwards. *)
Lemma json_store_lookup_member members : ∀ (m : gmap string Value) key,
  key ∈ map fst members → is_Some (json_store members m !! key).
Proof.
  unfold json_store.
  induction members as [|[k j] members IH]; intros m key Hkey.
  - by apply elem_of_nil in Hkey.
  - simpl in *. destruct (decide (key ∈ map fst members)) as [Hin|Hout].
    + by apply IH.
    + apply elem_of_cons in Hkey as [->|Hin]; [|done].
      change (is_Some (json_store members (<[k:=value_of_json j]> m) !! k)).
      rewrite json_store_lookup_other by exact Hout.
      rewrite lookup_insert_eq. by eexists.
Qed.

(** The container after decoding a text that is not [null]: the map it
    had (or none), with the members of the text stored when the text is
    an object and the container was initialized or no error occurred. *)
Lemma UnmarshalJSON_not_null (c : Claims) b :
  json_syntax b ≠ Some JNull →
  fst (UnmarshalJSON c (Some b)) = c
  ∨ ∃ members, json_syntax b = Some (JObject members)
      ∧ fst (UnmarshalJSON c (Some b))
        = Some (json_store members (default ∅ c)).
Proof.
  intros Hnull. unfold UnmarshalJSON, json_Unmarshal.
  destruct (json_syntax b) as [[| | | | |members]|] eqn:Hb;
    try (left; by destruct c).
  destruct (forallb _ members); cbn [fst].
  - right. exists members. by destruct c.
  - destruct c as [m|]; [|by left].
    right. by exists members.
Qed.

(** C6 (amended): decoding a nil byte slice changes nothing and returns
    no error; decoding any text other than the JSON value [null] keeps
    every entry of the container whose key is not a member of the text;
    and when the text is an object and decoding returns no error, the
    container is the old map (an empty one for an uninitialized
    container) with the members stored into it, each of them present. *)
Theorem C6_UnmarshalJSON_merges :
  ∀ (c : Claims) (b : list byte),
    UnmarshalJSON c None = (c, None)
    ∧ (json_syntax b ≠ Some JNull → decode_keeps_entries c b)
    ∧ (∀ members, json_syntax b = Some (JObject members) →
         snd (UnmarshalJSON c (Some b)) = None →
         fst (UnmarshalJSON c (Some b))
           = Some (json_store members (default ∅ c))
         ∧ ∀ key, key ∈ map fst members →
             Contains (fst (UnmarshalJSON c (Some b))) key = true).
Proof.
  intros c b. split; [reflexivity|]. split.
  - intros Hnull key value Hget Hkey.
    destruct (UnmarshalJSON_not_null c b Hnull) as [->|(members & Hb & ->)];
      [exact Hget|].
    apply Get_found_initialized in Hget as (m & -> & Hm).
    apply Get_found. unfold input_keys in Hkey. rewrite Hb in Hkey.
    by rewrite json_store_lookup_other.
  - intros members Hb Herr.
    assert (fst (UnmarshalJSON c (Some b))
            = Some (json_store members (default ∅ c))) as Hc.
    { revert Herr. unfold UnmarshalJSON, json_Unmarshal. rewrite Hb.
      destruct (forallb _ members); [|discriminate]. by destruct c. }
    split; [exact Hc|].
    intros key Hkey. rewrite Hc, Contains_Get, Get_lookup.
    by destruct (json_store_lookup_member members (default ∅ c) key Hkey)
      as [v ->].
Qed.

End codec.

(** ** Properties of the dispatch *)

Section dispatch.

Import rest.

(** C9 (amended): for GET, PUT, POST, PATCH and OPTIONS [handleJob]
    probes the capability named after the verb, then its alias (Read,
    Update, Create, Modify, Info), and with neither returns the failure
    of the verb with the identity [handlerID@domain/resource]; for HEAD
    and DELETE it probes the one capability named after the verb and
    then fails in the same way; any other method is reported as not
    supported. *)
Theorem C9_dispatch_tiers :
  two_tier "GET" GetResourceHandler ReadResourceHandler ErrNoGetHandler
  ∧ two_tier "PUT" PutResourceHandler UpdateResourceHandler ErrNoPutHandler
  ∧ two_tier "POST" PostResourceHandler CreateResourceHandler ErrNoPostHandler
  ∧ two_tier "PATCH" PatchResourceHandler ModifyResourceHandler
      ErrNoPatchHandler
  ∧ two_tier "OPTIONS" OptionsResourceHandler InfoResourceHandler
      ErrNoOptionsHandler
  ∧ one_tier "HEAD" HeadResourceHandler ErrNoHeadHandler
  ∧ one_tier "DELETE" DeleteResourceHandler ErrNoDeleteHandler
  ∧ (∀ handler job, Method job ∉ handled_verbs →
       handleJob handler job
         = (false, Some (errors_New ErrMethodNotSupported (Method job)))).
Proof.
  repeat split; try (intros handler job Hverb; unfold handleJob;
                     rewrite Hverb; reflexivity).
  intros handler job Hverb. unfold handleJob, handled_verbs in *.
  repeat (apply not_elem_of_cons in Hverb as [?%String.eqb_neq Hverb]).
  by repeat match goal with H : String.eqb _ _ = false |- _ => rewrite H; clear H end.
Qed.

(** C9 (as stated) fails: HEAD has no alias.  A handler implementing
    every interface but [HeadResourceHandler] is refused a HEAD job; and
    whatever two different capabilities are taken as primary and alias, a
    handler implementing one of them alone is dispatched otherwise than
    in two tiers. *)
Lemma C9_head_has_no_alias :
  "HEAD" ∈ handled_verbs
  ∧ handleJob (lacking HeadResourceHandler) (mkJob "HEAD" "d" "r")
    = (false, Some (errors_New ErrNoHeadHandler "h@d/r"))
  ∧ (¬ ∃ primary alias code,
         primary ≠ alias ∧ two_tier "HEAD" primary alias code)
  ∧ ¬ two_tier_per_verb_stated.
Proof.
  assert (¬ ∃ primary alias code,
              primary ≠ alias ∧ two_tier "HEAD" primary alias code) as Hno.
  { intros (primary & alias & code & Hne & Htwo).
    pose proof (Htwo (implementing primary) (mkJob "HEAD" "d" "r") eq_refl) as H1.
    pose proof (Htwo (implementing alias) (mkJob "HEAD" "d" "r") eq_refl) as H2.
    destruct primary, alias; try congruence; vm_compute in H1, H2; congruence. }
  assert ("HEAD" ∈ handled_verbs) as Hin
    by apply list_elem_of_further, list_elem_of_here.
  split; [exact Hin|]. split; [reflexivity|]. split; [exact Hno|].
  intros Hall. exact (Hno (Hall "HEAD" Hin)).
Qed.

End dispatch.

(** ** The properties at concrete claims

    Claims, jobs and texts on which the statements above are applied, with
    the reference library for the functions of Go. *)

Section concrete.

Import jwt stated samples.

(** Splits a conjunction into its parts, and nothing else. *)
Ltac conjuncts := repeat match goal with |- _ ∧ _ => split end.

(** A string is none of the strings of an explicit list. *)
Ltac not_listed :=
  repeat (apply not_elem_of_cons; split; [discriminate|]);
  apply not_elem_of_nil.

Lemma C8_witness :
  @GetInt lib mixed "n" = (4711%Z, true)
  ∧ @GetInt lib mixed "f" = ((-3)%Z, true)
  ∧ @GetInt lib mixed "s" = ((-42)%Z, true)
  ∧ @GetInt lib mixed "max" = (9223372036854775807%Z, true)
  ∧ @GetInt lib mixed "bad" = (0%Z, false)
  ∧ @GetInt lib mixed "day" = (0%Z, false)
  ∧ @GetInt lib mixed "b" = (0%Z, false)
  ∧ @GetInt lib mixed "i64" = (0%Z, false)
  ∧ @GetInt lib mixed "none" = (0%Z, false)
  ∧ @GetFloat64 lib mixed "n" = (4711%float, true)
  ∧ @GetFloat64 lib mixed "f" = ((-3.75)%float, true)
  ∧ @GetFloat64 lib mixed "r" = (2.5%float, true)
  ∧ @GetFloat64 lib mixed "bad" = (0%float, false)
  ∧ @GetFloat64 lib mixed "b" = (0%float, false)
  ∧ @GetFloat64 lib mixed "none" = (0%float, false)
  ∧ @GetInt lib mixed "i32" = (0%Z, false)
  ∧ @GetFloat64 lib mixed "i64" = (0%float, false).
Proof.
  pose proof (@C8_GetInt_GetFloat64_coercion lib mixed) as H.
  conjuncts.
  - destruct (H "n") as [(I & _) _]. by apply I.
  - destruct (H "f") as [(_ & I & _) _].
    apply (proj2 (I (-3.75)%float eq_refl) (-8444249301319680)%Z (2 ^ 51)%Z);
      reflexivity.
  - destruct (H "s") as [(_ & _ & I & _) _].
    by apply (proj1 (I "-42" eq_refl)).
  - destruct (H "max") as [(_ & _ & I & _) _].
    by apply (proj1 (proj2 (proj2 (I "9223372036854775807" eq_refl)))
                9223372036854775807%Z).
  - destruct (H "bad") as [(_ & _ & I & _) _].
    by apply (proj1 (proj2 (I "4x" eq_refl)) 0%Z ErrSyntax).
  - destruct (H "day") as [(_ & _ & I & _) _].
    by apply (proj2 (proj2 (proj2 (I "2023-11-14" eq_refl)))
                "2"%char "023" "-"%char "11-14").
  - destruct (H "b") as [(_ & _ & _ & I & _) _].
    by apply (I (VBool true)).
  - destruct (H "i64") as [(_ & _ & _ & I & _) _].
    by apply (I (VInt64 1700000000)).
  - destruct (H "none") as [(_ & _ & _ & _ & I) _]. by apply I.
  - destruct (H "n") as [_ [(F & _) _]]. by apply (F 4711%Z).
  - destruct (H "f") as [_ [(_ & F & _) _]]. by apply F.
  - destruct (H "r") as [_ [(_ & _ & F & _) _]].
    by apply (proj1 (F "2.5" eq_refl)).
  - destruct (H "bad") as [_ [(_ & _ & F & _) _]].
    by apply (proj2 (F "4x" eq_refl)).
  - destruct (H "b") as [_ [(_ & _ & _ & F & _) _]].
    by apply (F (VBool true)).
  - destruct (H "none") as [_ [(_ & _ & _ & _ & F) _]]. by apply F.
  - destruct (H "i32") as [_ [_ N]].
    by apply (proj1 (N 7%Z (or_introl eq_refl))).
  - destruct (H "i64") as [_ [_ N]].
    by apply (proj2 (N 1700000000%Z (or_intror eq_refl))).
Defined.

(** C8 (as stated) fails: a stored [int64] is a native integer, and
    neither getter returns it.  The container that [SetExpiration] writes
    is such a one: the expiration it stores is found by neither [GetInt]
    nor [GetFloat64]. *)
Lemma C8_int64_counterexample :
  let c : Claims :=
    fst (@SetExpiration lib NewClaims (mkTime 1700000000 0 UTC)) in
  Get c "exp" = (VInt64 1700000000, true)
  ∧ native_integer (VInt64 1700000000) = Some 1700000000%Z
  ∧ @GetInt lib c "exp" = (0%Z, false)
  ∧ @GetFloat64 lib c "exp" = (0%float, false)
  ∧ ¬ @GetInt_native_integer_stated lib c "exp"
  ∧ ¬ @GetFloat64_native_integer_stated lib c "exp".
Proof.
  intros c. conjuncts; try reflexivity.
  - intros Hstated.
    specialize (Hstated (VInt64 1700000000) 1700000000%Z eq_refl eq_refl).
    vm_compute in Hstated. discriminate Hstated.
  - intros Hstated.
    specialize (Hstated (VInt64 1700000000) 1700000000%Z eq_refl eq_refl).
    vm_compute in Hstated. discriminate Hstated.
Qed.

Lemma C7_witness :
  @GetTime lib mixed "n" = (mkTime 4711 0 Local, true)
  ∧ @GetTime lib mixed "i32" = (mkTime 7 0 Local, true)
  ∧ @GetTime lib mixed "i64" = (mkTime 1700000000 0 Local, true)
  ∧ @GetTime lib mixed "f" = (mkTime (-3) 0 Local, true)
  ∧ @GetTime lib mixed "t" = (mkTime 1700000000 0 UTC, true)
  ∧ @GetTime lib mixed "day" = (zero_Time, false)
  ∧ @GetTime lib mixed "b" = (zero_Time, false)
  ∧ @GetTime lib mixed "none" = (zero_Time, false).
Proof.
  pose proof (@C7_GetTime_coercion lib mixed) as H.
  conjuncts.
  - destruct (H "n") as (T & _). apply T. by left.
  - destruct (H "i32") as (T & _). apply T. right. by left.
  - destruct (H "i64") as (T & _). apply T. right. by right.
  - destruct (H "f") as (_ & T & _).
    apply (proj2 (T (-3.75)%float eq_refl) (-8444249301319680)%Z (2 ^ 51)%Z);
      reflexivity.
  - destruct (H "t") as (_ & _ & T & _).
    by apply (proj1 (T "2023-11-14T22:13:20Z" eq_refl)).
  - destruct (H "day") as (_ & _ & T & _).
    by apply (proj2 (T "2023-11-14" eq_refl)).
  - destruct (H "b") as (_ & _ & _ & T & _). by apply (T (VBool true)).
  - destruct (H "none") as (_ & _ & _ & _ & T). by apply T.
Defined.

Lemma C4_witness :
  let t := mkTime 1700000000 123456789 UTC in
  snd (@GetTime lib NewClaims "exp") = false
  ∧ snd (@SetTime lib NewClaims "exp" t) = zero_Time
  ∧ @Expiration lib (fst (@SetExpiration lib NewClaims t))
    = (mkTime 1700000000 0 Local, true).
Proof.
  intros t.
  pose proof (@C4_SetTime_stores_epoch_seconds lib ∅ "exp" t) as [H1 H2].
  split; [reflexivity|]. split.
  - apply H1. reflexivity.
  - apply H2.
Defined.

Lemma C5_witness :
  MarshalJSON failing_encoder None = (Some (bytes "{}"), None)
  ∧ MarshalJSON failing_encoder NewClaims = (Some (bytes "{}"), None)
  ∧ Some (bytes "{}") ≠ Some (bytes "null").
Proof.
  split; [|split].
  - apply C5_empty_claims_encode_as_empty_object. left. reflexivity.
  - apply C5_empty_claims_encode_as_empty_object. right.
    exists ∅. split; reflexivity.
  - discriminate.
Defined.

(** C6 (as stated) fails: decoding the text [null] into a container
    holding ["iss"] returns no error and leaves the container
    uninitialized, so that the entry is lost although the text does not
    have its key. *)
Lemma C6_null_literal_counterexample :
  let c : Claims := Some {[ "iss" := VString "tideland" ]} in
  Get c "iss" = (VString "tideland", true)
  ∧ ("iss" ∉ @input_keys lib (bytes "null"))
  ∧ @UnmarshalJSON lib c (Some (bytes "null")) = (None, None)
  ∧ ¬ @decode_keeps_entries lib c (bytes "null").
Proof.
  intros c. split; [reflexivity|]. split; [|split; [reflexivity|]].
  - change (@input_keys lib (bytes "null")) with (@nil string). not_listed.
  - intros Hkeep.
    specialize (Hkeep "iss" (VString "tideland") eq_refl).
    change (@input_keys lib (bytes "null")) with (@nil string) in Hkeep.
    assert (Get None "iss" = (VString "tideland", true)) as Habs
      by (apply Hkeep; not_listed).
    discriminate Habs.
Qed.

Lemma C6_witness :
  let c : Claims := Some {[ "iss" := VString "tideland" ]} in
  let c' := fst (@UnmarshalJSON lib c (Some payload)) in
  Get c' "iss" = (VString "tideland", true)
  ∧ Contains c' "sub" = true
  ∧ Contains c' "exp" = true.
Proof.
  intros c c'.
  pose proof (@C6_UnmarshalJSON_merges lib c payload) as (_ & Hkeep & Hnew).
  assert (@json_syntax lib payload
          = Some (JObject [("sub", JString "u1"); ("exp", JNumber "1700000000")]))
    as Hsyntax by (vm_compute; reflexivity).
  split; [|split].
  - apply Hkeep; [by rewrite Hsyntax|reflexivity|].
    unfold input_keys. rewrite Hsyntax. simpl. not_listed.
  - apply (proj2 (Hnew _ Hsyntax eq_refl)). simpl. apply list_elem_of_here.
  - apply (proj2 (Hnew _ Hsyntax eq_refl)). simpl.
    apply list_elem_of_further, list_elem_of_here.
Defined.

Lemma C9_witness :
  rest.handleJob (rest.implementing rest.ReadResourceHandler)
    (rest.mkJob "GET" "example.com" "users") = (true, None)
  ∧ rest.handleJob (rest.implementing rest.ReadResourceHandler)
      (rest.mkJob "PUT" "example.com" "users")
    = (false, Some (rest.errors_New rest.ErrNoPutHandler "h@example.com/users"))
  ∧ rest.handleJob (rest.implementing rest.ReadResourceHandler)
      (rest.mkJob "get" "example.com" "users")
    = (false, Some (rest.errors_New rest.ErrMethodNotSupported "get")).
Proof.
  pose proof C9_dispatch_tiers as (Hget & Hput & _ & _ & _ & _ & _ & Hother).
  split; [|split].
  - apply (Hget (rest.implementing rest.ReadResourceHandler)
             (rest.mkJob "GET" "example.com" "users") eq_refl).
  - apply (Hput (rest.implementing rest.ReadResourceHandler)
             (rest.mkJob "PUT" "example.com" "users") eq_refl).
  - apply (Hother (rest.implementing rest.ReadResourceHandler)
             (rest.mkJob "get" "example.com" "users")).
    unfold rest.handled_verbs. not_listed.
Defined.

(** *** The test suite of the package and the scenarios of the
    specification, run on the model *)

(** [TestClaimsBasic] *)
Example TestClaimsBasic :
  let claims : Claims := None in
  Contains claims "foo" = false
  ∧ Get claims "foo" = (VNil, false)
  ∧ Set_ claims "foo" (VString "bar") = (None, VNil)
  ∧ Delete claims "foo" = (None, VNil)
  ∧ let claims := NewClaims in
    Contains claims "foo" = false
    ∧ Get claims "foo" = (VNil, false)
    ∧ let '(claims, old) := Set_ claims "foo" (VString "bar") in
      old = VNil
      ∧ Contains claims "foo" = true
      ∧ Get claims "foo" = (VString "bar", true)
      ∧ let '(claims, old) := Set_ claims "foo" (VString "yadda") in
        old = VString "bar"
        ∧ let '(claims, old) := Delete claims "foo" in
          old = VString "yadda"
          ∧ let '(claims, old) := Delete claims "foo" in
            old = VNil ∧ Contains claims "foo" = false.
Proof. vm_compute. conjuncts; reflexivity. Qed.

(** An audience of mixed types is not found; a sequence of strings that
    came through JSON is. *)
Example mixed_audience :
  Audience (Some {[ "aud" := VSlice [VString "a"; VFloat64 7] ]}) = ([], false)
  ∧ Audience (Some {[ "aud" := VSlice [VString "a"; VString "b"] ]})
    = (["a"; "b"], true)
  ∧ Audience (Some {[ "aud" := VBool true ]}) = ([], false)
  ∧ Audience (Some {[ "aud" := VNil ]}) = ([], false)
  ∧ Audience (Some {[ "aud" := VStrings [] ]}) = ([], true).
Proof. conjuncts; reflexivity. Qed.

(** Decoding the payload into an uninitialized container initializes it;
    the expiration is the epoch time of the number. *)
Example decode_payload :
  let c := fst (@UnmarshalJSON lib None (Some payload)) in
  snd (@UnmarshalJSON lib None (Some payload)) = None
  ∧ Len c = 2%Z
  ∧ Get c "sub" = (VString "u1", true)
  ∧ Get c "exp" = (VFloat64 1700000000, true)
  ∧ @Expiration lib c = (mkTime 1700000000 0 Local, true).
Proof. vm_compute. conjuncts; reflexivity. Qed.

(** A text that is not valid JSON and a text that is not an object are
    errors and leave the container as it is. *)
Example decode_errors :
  let c : Claims := Some {[ "iss" := VString "tideland" ]} in
  @UnmarshalJSON lib c (Some (bytes "{"))
    = (c, Some (Annotated ErrJSONUnmarshalling (LibraryError "invalid JSON text")))
  ∧ fst (@UnmarshalJSON lib c (Some (bytes "[1,2]"))) = c
  ∧ fst (@UnmarshalJSON lib c (Some (bytes ""))) = c
  ∧ snd (@UnmarshalJSON lib c (Some (bytes ""))) ≠ None.
Proof. vm_compute. conjuncts; try reflexivity. discriminate. Qed.

(** [strconv.ParseUint] stops at the digit that leaves the range of
    [uint64]: a byte after it that is no digit is not reached. *)
Example parse_range_before_syntax :
  strconv_ParseUint "99999999999999999999x" = (maxUint64, Some ErrRange)
  ∧ strconv_ParseUint "18446744073709551615" = (maxUint64, None)
  ∧ strconv_ParseUint "18446744073709551616" = (maxUint64, Some ErrRange)
  ∧ strconv_ParseUint "1x" = (0%Z, Some ErrSyntax)
  ∧ strconv_ParseInt "99999999999999999999x"
    = (9223372036854775807%Z, Some ErrRange)
  ∧ strconv_ParseInt "-99999999999999999999x"
    = ((-9223372036854775808)%Z, Some ErrRange)
  ∧ strconv_ParseInt "-9223372036854775808"
    = ((-9223372036854775808)%Z, None)
  ∧ @GetInt lib (Some {[ "n" := VString "99999999999999999999x" ]}) "n"
    = (0%Z, false).
Proof. by vm_compute. Qed.

End concrete.

(** ** Further properties of the container *)

(** Splits the conjunctions of the goal, and nothing else. *)
Ltac conjs := repeat match goal with |- _ ∧ _ => split end.

Section container_more.

Import jwt.

Lemma Contains_lookup (m : gmap string Value) key :
  Contains (Some m) key = bool_decide (is_Some (m !! key)).
Proof.
  rewrite Contains_Get, Get_lookup. by destruct (m !! key) as [v|].
Qed.

(** X1: on an initialized container [Set] returns the value [Get] read
    before and makes [Get] find the new value; setting the key again
    returns that value; every other key reads as before. *)
Theorem X1_Set_then_Get :
  ∀ (m : gmap string Value) (key : string) (value value' : Value),
    Get (fst (Set_ (Some m) key value)) key = (value, true)
    ∧ Contains (fst (Set_ (Some m) key value)) key = true
    ∧ snd (Set_ (Some m) key value) = fst (Get (Some m) key)
    ∧ snd (Set_ (fst (Set_ (Some m) key value)) key value') = value
    ∧ ∀ key', key' ≠ key →
        Get (fst (Set_ (Some m) key value)) key' = Get (Some m) key'.
Proof.
  intros m key value value'. rewrite !Set_initialized. cbn [fst snd].
  rewrite Contains_Get, !Get_lookup, lookup_insert_eq. cbn [fst snd].
  conjs; try reflexivity.
  - rewrite Set_initialized. cbn [snd]. by rewrite Get_lookup, lookup_insert_eq.
  - intros key' Hne. by rewrite !Get_lookup, lookup_insert_ne.
Qed.

(** X2: on an initialized container [Delete] returns the value [Get] read
    before and makes the key absent; deleting it again returns nil and
    changes nothing; every other key reads as before; deleting an absent
    key leaves the container as it is, and deleting a key just set where
    there was none gives the container back. *)
Theorem X2_Delete_removes :
  ∀ (m : gmap string Value) (key : string),
    Get (fst (Delete (Some m) key)) key = (VNil, false)
    ∧ snd (Delete (Some m) key) = fst (Get (Some m) key)
    ∧ Delete (fst (Delete (Some m) key)) key = (fst (Delete (Some m) key), VNil)
    ∧ (∀ key', key' ≠ key →
         Get (fst (Delete (Some m) key)) key' = Get (Some m) key')
    ∧ (Contains (Some m) key = false →
         fst (Delete (Some m) key) = Some m
         ∧ ∀ value, fst (Delete (fst (Set_ (Some m) key value)) key) = Some m).
Proof.
  intros m key. rewrite !Delete_initialized. cbn [fst snd].
  rewrite ?Delete_initialized, !Get_lookup, lookup_delete_eq, ?delete_delete_eq.
  cbn [fst snd]. rewrite ?delete_delete_eq.
  split; [reflexivity|]. split; [reflexivity|]. split; [reflexivity|]. split.
  - intros key' Hne. by rewrite !Get_lookup, lookup_delete_ne.
  - rewrite Contains_lookup. intros Habsent%bool_decide_eq_false.
    assert (m !! key = None) as Hnone
      by (destruct (m !! key) eqn:E; [exfalso; apply Habsent; by eexists|done]).
    split; [by rewrite delete_id|].
    intros value. rewrite Set_initialized. cbn [fst].
    rewrite Delete_initialized. cbn [fst]. by rewrite delete_insert_id.
Qed.

(** X3: [Len] is never negative and is zero exactly when no key is
    contained.  On an initialized container [Set] adds one to it when the
    key was absent and nothing otherwise; on an uninitialized container
    [Set] stores nothing and [Len] stays zero.  On every container
    [Delete] takes one from it when the key was present and nothing
    otherwise. *)
Theorem X3_Len_counts_keys :
  ∀ (c : Claims) (key : string) (value : Value),
    (0 ≤ Len c)%Z
    ∧ (Len c = 0%Z ↔ ∀ key', Contains c key' = false)
    ∧ Len (fst (Set_ c key value))
      = match c with
        | Some _ => (Len c + if Contains c key then 0 else 1)%Z
        | None => 0%Z
        end
    ∧ Len (fst (Delete c key))
      = (Len c - if Contains c key then 1 else 0)%Z.
Proof.
  intros c key value. split; [destruct c; simpl; lia|]. split; [|split].
  - destruct c as [m'|]; [|by split].
    unfold Len. split.
    + intros Hsz key'. assert (m' = ∅) as -> by (apply map_size_empty_iff; lia).
      by rewrite Contains_lookup, lookup_empty.
    + intros Hnone. assert (m' = ∅) as ->; [|by rewrite map_size_empty].
      apply map_empty. intros i. specialize (Hnone i).
      rewrite Contains_lookup in Hnone. apply bool_decide_eq_false in Hnone.
      destruct (m' !! i) eqn:E; [exfalso; apply Hnone; by eexists|done].
  - destruct c as [m|]; [|reflexivity].
    rewrite Set_initialized, Contains_lookup. cbn [fst Len].
    rewrite map_size_insert. destruct (m !! key) as [v|] eqn:E; simpl; lia.
  - destruct c as [m|]; [|reflexivity].
    rewrite Delete_initialized, Contains_lookup. cbn [fst Len].
    rewrite map_size_delete. destruct (m !! key) as [v|] eqn:E; simpl; [|lia].
    assert (size m ≠ 0) by (intros ?%map_size_empty_iff; by subst).
    lia.
Qed.

End container_more.

(** ** The mutators on an initialized container, as map updates *)

Section updates.

Import jwt api.
Context `{L : GoLibrary} `{F : FmtLibrary}.

(** The getters read a container through [Get] at their key only. *)
Lemma getters_ext (c c' : Claims) key :
  Get c key = Get c' key →
  GetString c key = GetString c' key
  ∧ GetInt c key = GetInt c' key
  ∧ GetFloat64 c key = GetFloat64 c' key
  ∧ GetTime c key = GetTime c' key
  ∧ Contains c key = Contains c' key.
Proof.
  intros E. unfold GetString, GetInt, GetFloat64, GetTime, Contains.
  by rewrite E.
Qed.

Lemma Audience_ext (c c' : Claims) :
  Get c "aud" = Get c' "aud" → Audience c = Audience c'.
Proof. intros E. unfold Audience. by rewrite E. Qed.

Lemma SetTime_map (m : gmap string Value) key t :
  SetTime (Some m) key t
  = (Some (<[key := VInt64 (Time_Unix t)]> m), fst (GetTime (Some m) key)).
Proof.
  unfold SetTime. destruct (GetTime (Some m) key) as [old ok].
  by rewrite Set_initialized.
Qed.

Lemma SetAudience_map (m : gmap string Value) auds :
  SetAudience (Some m) auds
  = (Some match auds with
          | [] => delete "aud" m
          | [aud0] => <["aud" := VString aud0]> m
          | _ => <["aud" := VStrings auds]> m
          end,
     fst (Audience (Some m))).
Proof.
  unfold SetAudience. destruct (Audience (Some m)) as [old ok].
  destruct auds as [|a [|b l]];
    by rewrite ?Delete_initialized, ?Set_initialized.
Qed.

Lemma DeleteAudience_map (m : gmap string Value) :
  DeleteAudience (Some m) = (Some (delete "aud" m), fst (Audience (Some m))).
Proof.
  unfold DeleteAudience. destruct (Audience (Some m)) as [old ok].
  by rewrite Delete_initialized.
Qed.

(** A deleter of a time claim at [key]. *)
Lemma delete_time_map (m : gmap string Value) key :
  (let '(old, _) := GetTime (Some m) key in (fst (Delete (Some m) key), old))
  = (Some (delete key m), fst (GetTime (Some m) key)).
Proof.
  destruct (GetTime (Some m) key) as [old ok]. by rewrite Delete_initialized.
Qed.

(** A setter of a string claim at [key]. *)
Lemma set_string_map (m : gmap string Value) key s :
  (let '(old, _) := GetString (Some m) key in
   (fst (Set_ (Some m) key (VString s)), old))
  = (Some (<[key := VString s]> m), fst (GetString (Some m) key)).
Proof.
  destruct (GetString (Some m) key) as [old ok]. by rewrite Set_initialized.
Qed.

(** A deleter of a string claim at [key]. *)
Lemma delete_string_map (m : gmap string Value) key :
  (let '(old, _) := GetString (Some m) key in (fst (Delete (Some m) key), old))
  = (Some (delete key m), fst (GetString (Some m) key)).
Proof.
  destruct (GetString (Some m) key) as [old ok]. by rewrite Delete_initialized.
Qed.

End updates.

(** Rewrites a mutator on an initialized container into its map update. *)
Ltac to_map_update :=
  unfold jwt.SetExpiration, jwt.DeleteExpiration, jwt.SetIssuedAt,
    jwt.DeleteIssuedAt, jwt.SetIssuer, jwt.DeleteIssuer, jwt.SetIdentifier,
    jwt.DeleteIdentifier, jwt.SetNotBefore, jwt.DeleteNotBefore,
    jwt.SetSubject, jwt.DeleteSubject, jwt.Expiration, jwt.IssuedAt,
    jwt.NotBefore, jwt.Issuer, jwt.Identifier, jwt.Subject;
  rewrite ?SetTime_map, ?SetAudience_map, ?DeleteAudience_map,
    ?delete_time_map, ?set_string_map, ?delete_string_map,
    ?Set_initialized, ?Delete_initialized.

(** ** Properties of the mutators as a whole *)

Section mutators.

Import jwt api.
Context `{L : GoLibrary} `{F : FmtLibrary}.

(** On an initialized container a mutator inserts or deletes at the key
    it touches, and nothing else. *)
Lemma mutate_initialized (m : gmap string Value) (mu : mutation) :
  ∃ m', fst (mutate (Some m) mu) = Some m'
        ∧ ∀ key, key ≠ touched mu → m' !! key = m !! key.
Proof.
  destruct mu as [key v|key t|key|auds| |t| |t| |s| |s| |t| |s| ];
    cbn [mutate touched]; to_map_update;
    (eexists; split; [reflexivity|]); intros k Hk;
    try destruct auds as [|a [|b auds]];
    by rewrite ?lookup_insert_ne, ?lookup_delete_ne.
Qed.

Lemma mutate_nil (mu : mutation) : mutate None mu = (None, zero_result mu).
Proof. destruct mu as [| | |[|a [|b auds]]| | | | | | | | | | | | | ]; reflexivity. Qed.

Lemma mutate_all_nil (mus : list mutation) :
  mutate_all None mus = (None, zero_result <$> mus).
Proof.
  induction mus as [|mu mus IH]; [reflexivity|].
  cbn [mutate_all]. rewrite mutate_nil, IH. reflexivity.
Qed.

Lemma mutate_all_initialized (mus : list mutation) : ∀ m : gmap string Value,
  ∃ m', fst (mutate_all (Some m) mus) = Some m'
        ∧ ∀ key, key ∉ touched <$> mus → m' !! key = m !! key.
Proof.
  induction mus as [|mu mus IH]; intros m.
  - exists m. by split.
  - destruct (mutate_initialized m mu) as (m1 & Hm1 & Hframe1).
    destruct (IH m1) as (m2 & Hm2 & Hframe2).
    exists m2. split.
    + cbn [mutate_all]. destruct (mutate (Some m) mu) as [c1 r].
      cbn [fst] in Hm1. subst c1.
      destruct (mutate_all (Some m1) mus) as [c2 rs]. exact Hm2.
    + intros key Hkey. rewrite fmap_cons in Hkey.
      apply not_elem_of_cons in Hkey as [Hne Hkey].
      rewrite Hframe2 by exact Hkey. by apply Hframe1.
Qed.

(** X4: on an uninitialized container every mutator of the package, the
    typed setters and deleters included, returns the zero value of its
    result type and leaves the container uninitialized; after any
    sequence of them the container has length zero and every getter
    reports its key absent. *)
Theorem X4_mutators_on_uninitialized :
  ∀ (mus : list mutation) (key : string),
    mutate_all None mus = (None, zero_result <$> mus)
    ∧ Len (fst (mutate_all None mus)) = 0%Z
    ∧ Get (fst (mutate_all None mus)) key = (VNil, false)
    ∧ GetString (fst (mutate_all None mus)) key = (EmptyString, false)
    ∧ GetInt (fst (mutate_all None mus)) key = (0%Z, false)
    ∧ GetFloat64 (fst (mutate_all None mus)) key = (0%float, false)
    ∧ GetTime (fst (mutate_all None mus)) key = (zero_Time, false)
    ∧ Audience (fst (mutate_all None mus)) = ([], false).
Proof.
  intros mus key. rewrite mutate_all_nil. by conjs.
Qed.

(** X5: an initialized container stays initialized under every sequence
    of mutators: none of them, the deleters included, turns the map into
    nil. *)
Theorem X5_mutators_keep_initialized :
  ∀ (m : gmap string Value) (mus : list mutation),
    ∃ m' : gmap string Value, fst (mutate_all (Some m) mus) = Some m'.
Proof.
  intros m mus. destruct (mutate_all_initialized mus m) as (m' & Hm' & _).
  by exists m'.
Qed.

(** X6: a sequence of mutators changes no key other than those it
    touches: every getter reads such a key as before, and the audience
    reads as before when ["aud"] is not touched. *)
Theorem X6_mutators_frame :
  ∀ (c : Claims) (mus : list mutation) (key : string),
    key ∉ touched <$> mus →
    Get (fst (mutate_all c mus)) key = Get c key
    ∧ GetString (fst (mutate_all c mus)) key = GetString c key
    ∧ GetInt (fst (mutate_all c mus)) key = GetInt c key
    ∧ GetFloat64 (fst (mutate_all c mus)) key = GetFloat64 c key
    ∧ GetTime (fst (mutate_all c mus)) key = GetTime c key
    ∧ Contains (fst (mutate_all c mus)) key = Contains c key
    ∧ (key = "aud" → Audience (fst (mutate_all c mus)) = Audience c).
Proof.
  intros c mus key Hkey.
  assert (Get (fst (mutate_all c mus)) key = Get c key) as Hget.
  { destruct c as [m|]; [|by rewrite mutate_all_nil].
    destruct (mutate_all_initialized mus m) as (m' & -> & Hframe).
    by rewrite !Get_lookup, Hframe. }
  destruct (getters_ext _ _ _ Hget) as (? & ? & ? & ? & ?).
  conjs; try done.
  intros ->. by apply Audience_ext.
Qed.

End mutators.

(** ** Properties of the typed accessors *)

Section accessors.

Import jwt api.
Context `{L : GoLibrary} `{F : FmtLibrary}.

Lemma GetString_lookup (m : gmap string Value) key :
  GetString (Some m) key =
    match m !! key with
    | Some (VString str) => (str, true)
    | Some value => (fmt_Sprintf_v value, true)
    | None => (EmptyString, false)
    end.
Proof.
  unfold GetString. rewrite Get_lookup.
  by destruct (m !! key) as [[]|].
Qed.

Lemma GetTime_inserted_int64 (m : gmap string Value) key sec :
  GetTime (Some (<[key := VInt64 sec]> m)) key = (mkTime sec 0 Local, true).
Proof. unfold GetTime. by rewrite Get_lookup, lookup_insert_eq. Qed.

Lemma GetTime_deleted (m : gmap string Value) key :
  GetTime (Some (delete key m)) key = (zero_Time, false).
Proof. unfold GetTime. by rewrite Get_lookup, lookup_delete_eq. Qed.

(** Simplifies reads at a key just inserted or deleted. *)
Ltac read_back :=
  cbn [fst snd];
  rewrite ?GetTime_inserted_int64, ?GetTime_deleted, ?GetString_lookup,
    ?lookup_insert_eq, ?lookup_delete_eq;
  cbn [fst snd].

(** X7: for each of the string claims (issuer, identifier, subject) on an
    initialized container: the getter after the setter finds the string
    set; the setter and the deleter return what the getter read before;
    after the deleter the getter reports not-found with the empty string;
    and the deleter after the setter returns the string set. *)
Theorem X7_string_claims_round_trip :
  ∀ (m : gmap string Value) (s : string),
    (Issuer (fst (SetIssuer (Some m) s)) = (s, true)
     ∧ snd (SetIssuer (Some m) s) = fst (Issuer (Some m))
     ∧ Issuer (fst (DeleteIssuer (Some m))) = (EmptyString, false)
     ∧ snd (DeleteIssuer (Some m)) = fst (Issuer (Some m))
     ∧ snd (DeleteIssuer (fst (SetIssuer (Some m) s))) = s)
    ∧ (Identifier (fst (SetIdentifier (Some m) s)) = (s, true)
       ∧ snd (SetIdentifier (Some m) s) = fst (Identifier (Some m))
       ∧ Identifier (fst (DeleteIdentifier (Some m))) = (EmptyString, false)
       ∧ snd (DeleteIdentifier (Some m)) = fst (Identifier (Some m))
       ∧ snd (DeleteIdentifier (fst (SetIdentifier (Some m) s))) = s)
    ∧ (Subject (fst (SetSubject (Some m) s)) = (s, true)
       ∧ snd (SetSubject (Some m) s) = fst (Subject (Some m))
       ∧ Subject (fst (DeleteSubject (Some m))) = (EmptyString, false)
       ∧ snd (DeleteSubject (Some m)) = fst (Subject (Some m))
       ∧ snd (DeleteSubject (fst (SetSubject (Some m) s))) = s).
Proof.
  intros m s. conjs; to_map_update; read_back; try reflexivity;
    to_map_update; by read_back.
Qed.

(** X8: for each of the time claims (expiration, issued-at, not-before)
    on an initialized container: the getter after the setter finds the
    time set, cut to whole seconds and in the local location; the setter
    and the deleter return what the getter read before; after the deleter
    the getter reports not-found with the zero time; and the deleter
    after the setter returns the time set, cut to whole seconds. *)
Theorem X8_time_claims_round_trip :
  ∀ (m : gmap string Value) (t : Time),
    (Expiration (fst (SetExpiration (Some m) t))
     = (mkTime (unix_sec t) 0 Local, true)
     ∧ snd (SetExpiration (Some m) t) = fst (Expiration (Some m))
     ∧ Expiration (fst (DeleteExpiration (Some m))) = (zero_Time, false)
     ∧ snd (DeleteExpiration (Some m)) = fst (Expiration (Some m))
     ∧ snd (DeleteExpiration (fst (SetExpiration (Some m) t)))
       = mkTime (unix_sec t) 0 Local)
    ∧ (IssuedAt (fst (SetIssuedAt (Some m) t)) = (mkTime (unix_sec t) 0 Local, true)
       ∧ snd (SetIssuedAt (Some m) t) = fst (IssuedAt (Some m))
       ∧ IssuedAt (fst (DeleteIssuedAt (Some m))) = (zero_Time, false)
       ∧ snd (DeleteIssuedAt (Some m)) = fst (IssuedAt (Some m))
       ∧ snd (DeleteIssuedAt (fst (SetIssuedAt (Some m) t)))
         = mkTime (unix_sec t) 0 Local)
    ∧ (NotBefore (fst (SetNotBefore (Some m) t)) = (mkTime (unix_sec t) 0 Local, true)
       ∧ snd (SetNotBefore (Some m) t) = fst (NotBefore (Some m))
       ∧ NotBefore (fst (DeleteNotBefore (Some m))) = (zero_Time, false)
       ∧ snd (DeleteNotBefore (Some m)) = fst (NotBefore (Some m))
       ∧ snd (DeleteNotBefore (fst (SetNotBefore (Some m) t)))
         = mkTime (unix_sec t) 0 Local).
Proof.
  intros m t. conjs; to_map_update; read_back; try reflexivity;
    to_map_update; by read_back.
Qed.

(** X9: [SetTime] is canonical on write, on every container: of two
    calls at a key the later one decides what is stored, and writing back
    the time just read stores the same value again.  On an initialized
    container the later call, and the write-back, return the time of the
    earlier call cut to whole seconds; on an uninitialized container
    nothing is stored and both return the zero time. *)
Theorem X9_SetTime_canonical :
  ∀ (c : Claims) (key : string) (t t' : Time),
    fst (SetTime (fst (SetTime c key t)) key t') = fst (SetTime c key t')
    ∧ snd (SetTime (fst (SetTime c key t)) key t')
      = match c with
        | Some _ => mkTime (unix_sec t) 0 Local
        | None => zero_Time
        end
    ∧ SetTime (fst (SetTime c key t)) key
        (fst (GetTime (fst (SetTime c key t)) key))
      = (fst (SetTime c key t),
         match c with
         | Some _ => mkTime (unix_sec t) 0 Local
         | None => zero_Time
         end).
Proof.
  intros c key t t'. destruct c as [m|].
  - rewrite !SetTime_map. cbn [fst snd].
    rewrite !SetTime_map, !GetTime_inserted_int64. cbn [fst snd].
    unfold Time_Unix. cbn [unix_sec]. by rewrite !insert_insert_eq.
  - by conjs.
Qed.

(** X10: a time written by [SetTime] is stored as an [int64], which
    [GetTime] reads back but for which [GetInt] and [GetFloat64] have no
    case: both report not-found at that key, while [GetString] renders
    the number. *)
Theorem X10_SetTime_value_is_no_int :
  ∀ (m : gmap string Value) (key : string) (t : Time),
    Get (fst (SetTime (Some m) key t)) key = (VInt64 (unix_sec t), true)
    ∧ snd (GetTime (fst (SetTime (Some m) key t)) key) = true
    ∧ GetInt (fst (SetTime (Some m) key t)) key = (0%Z, false)
    ∧ GetFloat64 (fst (SetTime (Some m) key t)) key = (0%float, false)
    ∧ GetString (fst (SetTime (Some m) key t)) key
      = (fmt_Sprintf_v (VInt64 (unix_sec t)), true).
Proof.
  intros m key t. rewrite SetTime_map. cbn [fst].
  unfold GetInt, GetFloat64. rewrite GetTime_inserted_int64, GetString_lookup.
  by rewrite Get_lookup, lookup_insert_eq.
Qed.

(** X11: the audience read after [SetAudience] on an initialized
    container is the sequence written, whatever shape was stored for it,
    and is found exactly when the sequence has an element;
    [DeleteAudience] returns what [Audience] read before and leaves the
    audience not found. *)
Theorem X11_audience_round_trip :
  ∀ (m : gmap string Value) (auds : list string),
    Audience (fst (SetAudience (Some m) auds))
      = (auds, match auds with [] => false | _ => true end)
    ∧ snd (DeleteAudience (fst (SetAudience (Some m) auds))) = auds
    ∧ Audience (fst (DeleteAudience (Some m))) = ([], false)
    ∧ snd (DeleteAudience (Some m)) = fst (Audience (Some m)).
Proof.
  intros m auds. rewrite SetAudience_map, !DeleteAudience_map. cbn [fst snd].
  assert (∀ m' : gmap string Value, Audience (Some (delete "aud" m')) = ([], false))
    as Hdel by (intros m'; unfold Audience; by rewrite Get_lookup, lookup_delete_eq).
  assert (Audience (Some match auds with
                         | [] => delete "aud" m
                         | [aud0] => <["aud" := VString aud0]> m
                         | _ => <["aud" := VStrings auds]> m
                         end)
          = (auds, match auds with [] => false | _ => true end)) as Hset.
  { destruct auds as [|a [|b l]]; [apply Hdel|..];
      unfold Audience; by rewrite Get_lookup, lookup_insert_eq. }
  rewrite Hset, Hdel. conjs; try reflexivity.
  rewrite DeleteAudience_map. cbn [snd]. by rewrite Hset.
Qed.

(** X12: at a key the container does not have, and so at every key of an
    uninitialized container, every getter reports not-found with the zero
    value of its type. *)
Theorem X12_absent_key_reads_zero :
  ∀ (c : Claims) (key : string),
    Contains c key = false →
    Get c key = (VNil, false)
    ∧ GetString c key = (EmptyString, false)
    ∧ GetInt c key = (0%Z, false)
    ∧ GetFloat64 c key = (0%float, false)
    ∧ GetTime c key = (zero_Time, false).
Proof.
  intros c key Habsent. rewrite Contains_Get in Habsent.
  assert (Get c key = (VNil, false)) as Hget.
  { destruct c as [m|]; [|reflexivity].
    rewrite Get_lookup in *. by destruct (m !! key). }
  unfold GetString, GetInt, GetFloat64, GetTime. by rewrite Hget.
Qed.

(** X13: [GetString] finds every key the container has, whatever the
    type of the value, nil included: it returns a stored string as it is
    and the rendering of any other value. *)
Theorem X13_GetString_finds_present_keys :
  ∀ (c : Claims) (key : string),
    snd (GetString c key) = Contains c key
    ∧ (∀ s, Get c key = (VString s, true) → GetString c key = (s, true))
    ∧ (∀ v, Get c key = (v, true) → (∀ s, v ≠ VString s) →
         GetString c key = (fmt_Sprintf_v v, true)).
Proof.
  intros c key. rewrite Contains_Get. unfold GetString.
  destruct (Get c key) as [v ok]. conjs.
  - by destruct ok, v.
  - by intros s [= -> ->].
  - intros w [= -> ->] Hw. destruct w; try reflexivity. by destruct (Hw s).
Qed.

End accessors.

(** ** Further properties of the JSON codec *)

Section codec_more.

Import jwt stated api.
Context `{L : GoLibrary}.

Lemma value_of_json_textual (j : json) :
  is_textual (value_of_json j) = is_JString j.
Proof. destruct j; try reflexivity. simpl. by destruct (strconv_ParseFloat _). Qed.

Lemma texts_value_of_json (elems : list json) :
  texts (value_of_json <$> elems) = json_strings elems.
Proof.
  induction elems as [|j elems IH]; [reflexivity|].
  unfold texts, json_strings in *. rewrite fmap_cons. cbn [omap list_omap].
  rewrite IH. destruct j; try reflexivity.
  simpl. by destruct (strconv_ParseFloat _).
Qed.

Lemma forallb_value_of_json (elems : list json) :
  forallb is_textual (value_of_json <$> elems) = forallb is_JString elems.
Proof.
  induction elems as [|j elems IH]; [reflexivity|].
  rewrite fmap_cons. cbn [forallb]. by rewrite value_of_json_textual, IH.
Qed.

(** X14: the audience of a container whose ["aud"] holds what the decoder
    stores for a JSON value: a JSON string reads as a one-element
    sequence; a JSON array with at least one element reads as its strings
    when every element is a JSON string and is not found otherwise; the
    empty array and every other JSON value (a number, a boolean, null, an
    object) are not found. *)
Theorem X14_audience_of_decoded_value :
  ∀ (m : gmap string Value) (j : json),
    Audience (Some (<["aud" := value_of_json j]> m)) =
      match j with
      | JString s => ([s], true)
      | JArray [] => ([], false)
      | JArray elems =>
          if forallb is_JString elems then (json_strings elems, true)
          else ([], false)
      | _ => ([], false)
      end.
Proof.
  intros m j. unfold Audience. rewrite Get_lookup, lookup_insert_eq. cbn [negb].
  destruct j as [|b|lit|s|elems|members]; try reflexivity.
  - simpl. by destruct (strconv_ParseFloat lit).
  - change (value_of_json (JArray elems)) with (VSlice (value_of_json <$> elems)).
    cbn iota. rewrite makeStrings_spec.
    destruct elems as [|j elems]; [reflexivity|].
    rewrite fmap_cons. rewrite <- fmap_cons.
    by rewrite forallb_value_of_json, texts_value_of_json.
Qed.

(** The value a key has after the members are stored is that of its last
    member. *)
Lemma json_store_lookup_last (l1 l2 : list (string * json)) key j :
  ∀ m : gmap string Value,
    key ∉ map fst l2 →
    json_store (l1 ++ (key, j) :: l2) m !! key = Some (value_of_json j).
Proof.
  intros m Hlast. unfold json_store. rewrite foldl_app. cbn [foldl fst snd].
  change (json_store l2 (<[key := value_of_json j]> (json_store l1 m)) !! key
          = Some (value_of_json j)).
  rewrite json_store_lookup_other by exact Hlast. apply lookup_insert_eq.
Qed.

(** Decoding the text of an object without an error gives the old map (an
    empty one for an uninitialized container) with the members stored. *)
Lemma UnmarshalJSON_object (c : Claims) b members :
  json_syntax b = Some (JObject members) →
  snd (UnmarshalJSON c (Some b)) = None →
  fst (UnmarshalJSON c (Some b)) = Some (json_store members (default ∅ c)).
Proof.
  intros Hb. unfold UnmarshalJSON, json_Unmarshal. rewrite Hb.
  destruct (forallb _ members); [|discriminate]. by destruct c.
Qed.

(** X15: after decoding the text of an object without an error the
    container is initialized, also when it was not before; it contains
    exactly the keys it had and the names of the members; and at the name
    of a member it holds the decoded value of the last member of that
    name. *)
Theorem X15_decoded_container :
  ∀ (c : Claims) (b : list byte) (members : list (string * json)),
    json_syntax b = Some (JObject members) →
    snd (UnmarshalJSON c (Some b)) = None →
    (∃ m' : gmap string Value, fst (UnmarshalJSON c (Some b)) = Some m')
    ∧ (∀ key, Contains (fst (UnmarshalJSON c (Some b))) key = true
              ↔ Contains c key = true ∨ key ∈ map fst members)
    ∧ (∀ l1 key j l2, members = l1 ++ (key, j) :: l2 → key ∉ map fst l2 →
         Get (fst (UnmarshalJSON c (Some b))) key = (value_of_json j, true)).
Proof.
  intros c b members Hb Hok. rewrite (UnmarshalJSON_object c b members Hb Hok).
  conjs.
  - by eexists.
  - intros key. rewrite Contains_lookup, bool_decide_eq_true.
    destruct (decide (key ∈ map fst members)) as [Hin|Hout].
    + split; [by right|]. intros _. by apply json_store_lookup_member.
    + rewrite json_store_lookup_other by exact Hout. split.
      * intros Hsome. left. destruct c as [m|]; simpl in *.
        -- by rewrite Contains_lookup, bool_decide_eq_true.
        -- rewrite lookup_empty in Hsome. by destruct Hsome.
      * intros [Hc|Hin]; [|done]. destruct c as [m|]; [|discriminate].
        by rewrite Contains_lookup, bool_decide_eq_true in Hc.
  - intros l1 key j l2 -> Hlast. rewrite Get_lookup.
    by rewrite json_store_lookup_last.
Qed.

(** X16: [UnmarshalJSON] returns an error only for a byte slice that is
    not nil, and the error it returns is the one [json.Unmarshal] gave
    for that slice and the container, annotated with
    [ErrJSONUnmarshalling]; a failed decoding neither initializes nor
    uninitializes the container; and a text that is not valid JSON
    leaves the container exactly as it was. *)
Theorem X16_UnmarshalJSON_errors :
  ∀ (c : Claims) (b : option (list byte)) (e : error),
    snd (UnmarshalJSON c b) = Some e →
    (∃ b', b = Some b')
    ∧ (∃ b' cause, b = Some b'
         ∧ snd (json_Unmarshal b' c) = Some cause
         ∧ e = Annotated ErrJSONUnmarshalling cause)
    ∧ (is_Some (fst (UnmarshalJSON c b)) ↔ is_Some c)
    ∧ (∀ b', b = Some b' → json_syntax b' = None →
         fst (UnmarshalJSON c b) = c).
Proof.
  intros c [b|] e; [|discriminate]. unfold UnmarshalJSON.
  destruct (json_Unmarshal b c) as [raw [cause|]] eqn:Hu; cbn [fst snd];
    [|discriminate].
  intros [= <-]. conjs.
  - by eexists.
  - exists b, cause. by rewrite Hu.
  - destruct c as [m|]; [|by split; intros []].
    split; [by eexists|]. intros _. revert Hu. unfold json_Unmarshal.
    destruct (json_syntax b) as [[| | | | |members]|]; intros [= <- ?];
      by eexists.
  - intros b' [= <-] Hbad. revert Hu. unfold json_Unmarshal. rewrite Hbad.
    intros [= <- _]. by destruct c.
Qed.

(** X17: [MarshalJSON] returns either bytes and no error or no bytes and
    an error, never both and never neither; an error is the encoder's,
    annotated with [ErrJSONMarshalling], and occurs only for a container
    with entries; without an error on such a container the bytes are the
    encoder's. *)
Theorem X17_MarshalJSON_results :
  ∀ (json_Marshal : Claims → list byte * option error) (c : Claims),
    (is_Some (fst (MarshalJSON json_Marshal c))
     ↔ snd (MarshalJSON json_Marshal c) = None)
    ∧ (∀ e, snd (MarshalJSON json_Marshal c) = Some e →
         Len c ≠ 0%Z
         ∧ ∃ cause, snd (json_Marshal c) = Some cause
                    ∧ e = Annotated ErrJSONMarshalling cause)
    ∧ (Len c ≠ 0%Z → snd (json_Marshal c) = None →
         MarshalJSON json_Marshal c = (Some (fst (json_Marshal c)), None)).
Proof.
  intros json_Marshal c. unfold MarshalJSON.
  destruct (Z.eqb_spec (Len c) 0) as [Hz|Hnz].
  - conjs; [by split; [|eexists]|discriminate|done].
  - destruct (json_Marshal c) as [bs [cause|]]; cbn [fst snd]; conjs.
    + split; [by intros [? [=]]|discriminate].
    + intros e [= <-]. split; [done|]. by eexists.
    + discriminate.
    + split; [done|by eexists].
    + discriminate.
    + done.
Qed.

End codec_more.

(** ** Further properties of the dispatch *)

Section dispatch_more.

Import rest verbs.

(** X18: [handleJob] consults the identity of the handler and the
    interfaces of the request method, and nothing else of the handler:
    two handlers with the same identity that agree on those interfaces
    are dispatched alike, whatever other interfaces they implement. *)
Theorem X18_dispatch_depends_on_verb_capabilities :
  ∀ (handler handler' : ResourceHandler) (job : Job),
    ID handler = ID handler' →
    (∀ cap, cap ∈ capabilities_of (Method job) →
       probe handler cap = probe handler' cap) →
    handleJob handler job = handleJob handler' job.
Proof.
  intros handler handler' job Hid Hcaps.
  unfold handleJob, handler_id. rewrite Hid.
  unfold capabilities_of in Hcaps.
  repeat match goal with
         | |- context [String.eqb (Method job) ?verb] =>
             destruct (String.eqb (Method job) verb)
         end;
    repeat match goal with
           | H : ∀ cap, cap ∈ ?caps → _ |- _ =>
               match caps with
               | [?c1; ?c2] =>
                   pose proof (H c1 (list_elem_of_here _ _)) as H1;
                   pose proof (H c2 (list_elem_of_further _ _ _
                                       (list_elem_of_here _ _))) as H2;
                   clear H
               | [?c1] => pose proof (H c1 (list_elem_of_here _ _)) as H1; clear H
               | [] => clear H
               end
           end;
    cbn [probe] in *; try reflexivity;
    repeat match goal with H : _ = _ |- _ => rewrite H; clear H end;
    reflexivity.
Qed.

End dispatch_more.

(** ** The further properties at concrete claims *)

Section concrete_more.

Import jwt stated samples api.

(** A string is none of the strings of an explicit list. *)
Ltac not_among :=
  repeat (apply not_elem_of_cons; split; [discriminate|]);
  apply not_elem_of_nil.

Lemma X1_witness :
  Get (fst (Set_ token "iss" (VString "gorest"))) "iss" = (VString "gorest", true)
  ∧ snd (Set_ token "iss" (VString "gorest")) = VString "tideland"
  ∧ Get (fst (Set_ token "iss" (VString "gorest"))) "sub" = (VString "u1", true).
Proof.
  destruct (X1_Set_then_Get token_map "iss" (VString "gorest") VNil)
    as (Hget & _ & Hold & _ & Hframe).
  conjs.
  - exact Hget.
  - etrans; [exact Hold|reflexivity].
  - etrans; [apply Hframe; discriminate|reflexivity].
Defined.

Lemma X2_witness :
  Contains token "zzz" = false
  ∧ fst (Delete token "zzz") = token
  ∧ fst (Delete (fst (Set_ token "zzz" (VBool true))) "zzz") = token
  ∧ Get (fst (Delete token "iss")) "sub" = (VString "u1", true)
  ∧ snd (Delete token "iss") = VString "tideland".
Proof.
  destruct (X2_Delete_removes token_map "zzz") as (_ & _ & _ & _ & Habsent).
  destruct (X2_Delete_removes token_map "iss") as (_ & Hold & _ & Hframe & _).
  conjs.
  - reflexivity.
  - by apply Habsent.
  - by apply Habsent.
  - etrans; [apply Hframe; discriminate|reflexivity].
  - etrans; [exact Hold|reflexivity].
Defined.

Lemma X6_witness :
  let mus := [MSetIssuer "gorest"; MDeleteExpiration; MSetAudience []] in
  @GetString fmt (fst (@mutate_all lib fmt token mus)) "sub" = ("u1", true)
  ∧ @GetTime lib (fst (@mutate_all lib fmt token mus)) "iat"
    = (mkTime 1600000000 0 Local, true)
  ∧ Contains (fst (@mutate_all lib fmt token mus)) "exp" = false.
Proof.
  intros mus.
  assert ("sub" ∉ touched <$> mus) as Hsub by (simpl; not_among).
  assert ("iat" ∉ touched <$> mus) as Hiat by (simpl; not_among).
  destruct (@X6_mutators_frame lib fmt token mus "sub" Hsub) as (_ & Hs & _).
  destruct (@X6_mutators_frame lib fmt token mus "iat" Hiat)
    as (_ & _ & _ & _ & Ht & _).
  conjs.
  - etrans; [exact Hs|reflexivity].
  - etrans; [exact Ht|reflexivity].
  - reflexivity.
Defined.

Lemma X12_witness :
  @GetString fmt token "zzz" = (EmptyString, false)
  ∧ @GetInt lib token "zzz" = (0%Z, false)
  ∧ @GetFloat64 lib token "zzz" = (0%float, false)
  ∧ @GetTime lib token "zzz" = (zero_Time, false)
  ∧ @GetInt lib None "iss" = (0%Z, false).
Proof.
  destruct (@X12_absent_key_reads_zero lib fmt token "zzz" eq_refl)
    as (_ & Hs & Hi & Hf & Ht).
  destruct (@X12_absent_key_reads_zero lib fmt None "iss" eq_refl)
    as (_ & _ & Hnil & _).
  by conjs.
Defined.

(** In the last two parts, [TestClaimsString] of the package. *)
Lemma X13_witness :
  @GetString fmt token "nothing" = ("<nil>", true)
  ∧ @GetString fmt token "iss" = ("tideland", true)
  ∧ @GetString fmt (fst (Set_ NewClaims "foo" (VString "bar"))) "foo"
    = ("bar", true)
  ∧ @GetString fmt (fst (Set_ NewClaims "foo" (VInt 4711))) "foo"
    = ("4711", true).
Proof.
  conjs.
  - apply (proj2 (proj2 (@X13_GetString_finds_present_keys fmt token "nothing"))
             VNil eq_refl). discriminate.
  - by apply (proj1 (proj2 (@X13_GetString_finds_present_keys fmt token "iss"))).
  - by apply (proj1 (proj2 (@X13_GetString_finds_present_keys fmt
                              (fst (Set_ NewClaims "foo" (VString "bar"))) "foo"))).
  - apply (proj2 (proj2 (@X13_GetString_finds_present_keys fmt
                           (fst (Set_ NewClaims "foo" (VInt 4711))) "foo"))
             (VInt 4711) eq_refl). discriminate.
Defined.

Lemma X15_witness :
  let c' := fst (@UnmarshalJSON lib token (Some payload)) in
  Contains c' "exp" = true
  ∧ Contains c' "admin" = true
  ∧ Get c' "sub" = (VString "u1", true)
  ∧ Get c' "exp" = (VFloat64 1700000000, true).
Proof.
  intros c'.
  assert (@json_syntax lib payload
          = Some (JObject [("sub", JString "u1"); ("exp", JNumber "1700000000")]))
    as Hsyntax by (vm_compute; reflexivity).
  destruct (@X15_decoded_container lib token payload _ Hsyntax eq_refl)
    as (_ & Hdom & Hlast).
  conjs.
  - apply Hdom. right. simpl. apply list_elem_of_further, list_elem_of_here.
  - apply Hdom. by left.
  - apply (Hlast [] "sub" (JString "u1") [("exp", JNumber "1700000000")] eq_refl).
    simpl. not_among.
  - apply (Hlast [("sub", JString "u1")] "exp" (JNumber "1700000000") [] eq_refl).
    simpl. not_among.
Defined.

Lemma X16_witness :
  snd (@UnmarshalJSON lib token (Some (bytes "{")))
    = Some (Annotated ErrJSONUnmarshalling (LibraryError "invalid JSON text"))
  ∧ fst (@UnmarshalJSON lib token (Some (bytes "{"))) = token.
Proof.
  split; [reflexivity|].
  destruct (@X16_UnmarshalJSON_errors lib token (Some (bytes "{")) _ eq_refl)
    as (_ & _ & _ & Hsame).
  by apply (Hsame (bytes "{")).
Defined.

Lemma X17_witness :
  MarshalJSON failing_encoder token
    = (None, Some (Annotated ErrJSONMarshalling
                     (LibraryError "json: unsupported type")))
  ∧ MarshalJSON fixed_encoder token = (Some payload, None).
Proof.
  split; [reflexivity|].
  apply (proj2 (proj2 (X17_MarshalJSON_results fixed_encoder token)));
    [vm_compute; discriminate|reflexivity].
Defined.

Lemma X18_witness :
  rest.handleJob verbs.full (rest.mkJob "HEAD" "example.com" "users")
  = rest.handleJob verbs.full_but_get (rest.mkJob "HEAD" "example.com" "users").
Proof.
  apply X18_dispatch_depends_on_verb_capabilities; [reflexivity|].
  intros cap Hcap.
  change (cap ∈ [rest.HeadResourceHandler]) in Hcap.
  apply list_elem_of_singleton in Hcap. by subst cap.
Defined.

End concrete_more.
